(** * Reaktoro: chemical state container and species partition

    A shallow embedding of [Reaktoro/Core/ChemicalState.cpp] and
    [Reaktor/Core/Partition.cpp].

    - [double] is IEEE 754 binary64: Rocq's primitive [float], with the
      comparisons of the source ([>=], [>], [!=]) as [PrimFloat.leb],
      [PrimFloat.ltb] and [PrimFloat.eqb] (all false on NaN operands).
    - [Vector] (an Eigen column vector of doubles) is [list float];
      [Indices] ([std::vector<Index>]) is [list nat].  [Index] and the
      [unsigned] sizes and loop counters are naturals: containers are taken
      to hold fewer than 2^32 entries, where the unsigned arithmetic of the
      source does not wrap.
    - A member function that writes through [pimpl] is a computation in the
      monad [M], which threads the [Impl] and records how the call ends:
      it returns, it throws an [Exception] (the state at the throw is kept,
      so that "nothing was written" is a statement about the model), or it
      runs into undefined behaviour (an unchecked [operator[]] out of
      range).
    - Where the identity of objects matters (the operands and the result
      of [operator+]) the [Impl] objects live in a store and an object is
      an address in it. *)

From Stdlib Require Import Floats.
From Stdlib Require Import Ascii String.
From stdpp Require Import base strings list.

(** A decimal literal denotes the nearest double, as in C++. *)
Set Warnings "-inexact-float".

(** ** Scalars and vectors *)

Abbreviation Index := nat (only parsing).
Abbreviation Indices := (list nat) (only parsing).
Abbreviation Vector := (list float) (only parsing).

(** [zeros(n)] *)
Definition zeros (k : nat) : Vector := replicate k 0%float.

(** [Vector::fill(val)] *)
Definition fill (val : float) (v : Vector) : Vector := replicate (length v) val.

(** [sum(v)]: the entries added up, here from the left (Eigen fixes no
    order of summation; no statement below depends on the order). *)
Definition sum (v : Vector) : float := foldl PrimFloat.add 0%float v.

(** [nl + nr] on Eigen vectors: defined only for equal sizes. *)
Definition vadd (v w : Vector) : option Vector :=
  if decide (length v = length w) then Some (zip_with PrimFloat.add v w) else None.

(** ** Exceptions

    Every failure of the source goes through [RaiseError] with an [error]
    and a [reason] text: [Raised] carries the two texts as the embedded
    files give them.  The texts of the exceptions of the collaborators are
    not in these files; each of them has a constructor of its own. *)

Inductive Exception : Type :=
  | Raised (error reason : string)           (* RaiseError(exception) *)
  | UnknownSpecies (name : string)           (* indexSpeciesWithError *)
  | UnknownElement (name : string)           (* indexElementWithError *)
  | UnknownPhase (name : string)             (* indexPhaseWithError *)
  | NotConvertible (from to : string).       (* units::convert *)

(** ** Collaborators outside the embedded files *)

(** Modelled from the spec: the unit-conversion utility of
    [Reaktoro/Common/Units.hpp], "a string-based convertibility test and
    conversion".  [units_convert x from to] is the value [units::convert]
    returns when the units are convertible.  The constant [waterMolarMass]
    of [WaterConstants.hpp], [std::log10] and [std::to_string] are taken as
    parameters as well. *)
Class Externals : Type := {
  units_convertible : string → string → bool;
  units_convert : float → string → string → float;
  waterMolarMass : float;
  log10 : float → float;
  to_string : float → string;
}.

(** Modelled from the spec: a species of [Species.hpp], of which the state
    needs the name and the "per-species molar mass". *)
Record Species : Type := {
  species_name : string;
  molarMass : float;
}.

(** [PhaseData] of [Phase.hpp]: a name and the species of the phase. *)
Record Phase : Type := {
  phase_name : string;
  phase_species : list Species;
}.

(** Modelled from the spec: the chemical system of [ChemicalSystem.hpp],
    "ordered list of species, elements, phases; per-species molar mass;
    property evaluators as functions of (T, P, n)".  The species are those
    of the phases in order of appearance ([collectSpecies] of [Phase.hpp]),
    so that each phase owns "a contiguous species range".  The evaluators
    are taken as functions. *)
Record ChemicalSystem : Type := {
  phases : list Phase;
  element_names : list string;
  phaseVolumes : float → float → Vector → Vector;
  activities : float → float → Vector → Vector;
  system_elementAmount : Index → Vector → float;
  system_elementAmountInPhase : Index → Index → Vector → float;
}.

(** [collectSpecies(phases)] *)
Definition collectSpecies (ps : list Phase) : list Species :=
  concat (phase_species <$> ps).

Definition species (sys : ChemicalSystem) : list Species :=
  collectSpecies (phases sys).

Definition numSpecies (sys : ChemicalSystem) : nat := length (species sys).
Definition numElements (sys : ChemicalSystem) : nat := length (element_names sys).
Definition numPhases (sys : ChemicalSystem) : nat := length (phases sys).

(** Modelled from the spec: [index(name, values)], declared in [Utils.hpp]
    as "the index of an entry in a container": the position of the first
    entry with that name, and the size of the container when there is
    none.  [indexSpecies], [indexElement] and [indexPhase] of the system
    are this function on the names of its species, elements and phases. *)
Fixpoint index (name : string) (names : list string) : Index :=
  match names with
  | [] => 0
  | x :: rest => if String.eqb name x then 0 else S (index name rest)
  end.

Definition indexSpecies (sys : ChemicalSystem) (name : string) : Index :=
  index name (species_name <$> species sys).

Definition indexElement (sys : ChemicalSystem) (name : string) : Index :=
  index name (element_names sys).

Definition indexPhase (sys : ChemicalSystem) (name : string) : Index :=
  index name (phase_name <$> phases sys).

(** Modelled from the spec: the "contiguous species range" of a phase, its
    first species index and its number of species. *)
Definition numSpeciesInPhase (sys : ChemicalSystem) (iphase : Index) : nat :=
  from_option (λ p, length (phase_species p)) 0 (phases sys !! iphase).

Definition indexFirstSpeciesInPhase (sys : ChemicalSystem) (iphase : Index) : Index :=
  length (collectSpecies (take iphase (phases sys))).

(** ** The state *)

(** [ChemicalState::Impl] *)
Record ChemicalState : Type := {
  system : ChemicalSystem;
  T : float;
  P : float;
  n : Vector;
  y : Vector;
  z : Vector;
}.

Definition with_T (val : float) (s : ChemicalState) : ChemicalState :=
  {| system := system s; T := val; P := P s; n := n s; y := y s; z := z s |}.
Definition with_P (val : float) (s : ChemicalState) : ChemicalState :=
  {| system := system s; T := T s; P := val; n := n s; y := y s; z := z s |}.
Definition with_n (v : Vector) (s : ChemicalState) : ChemicalState :=
  {| system := system s; T := T s; P := P s; n := v; y := y s; z := z s |}.
Definition with_y (v : Vector) (s : ChemicalState) : ChemicalState :=
  {| system := system s; T := T s; P := P s; n := n s; y := v; z := z s |}.
Definition with_z (v : Vector) (s : ChemicalState) : ChemicalState :=
  {| system := system s; T := T s; P := P s; n := n s; y := y s; z := v |}.

(** [Impl(const ChemicalSystem&)], with the default member initialisers
    [T = 298.15] and [P = 1.0e+05]. *)
Definition ChemicalState_new (sys : ChemicalSystem) : ChemicalState :=
  {| system := sys; T := 0x1.2a26666666666p+8%float (* 298.15 *);
     P := 100000%float;
     n := zeros (numSpecies sys);
     y := zeros (numElements sys);
     z := zeros (numSpecies sys) |}.

(** ** The monad of member functions *)

Inductive Result (A : Type) : Type :=
  | Return (a : A)
  | Throw (e : Exception)
  | Undefined.
Arguments Return {A} a.
Arguments Throw {A} e.
Arguments Undefined {A}.

Definition M (A : Type) : Type := ChemicalState → Result A * ChemicalState.

Definition ret {A} (a : A) : M A := λ s, (Return a, s).

Definition bind {A B} (m : M A) (k : A → M B) : M B :=
  λ s, match m s with
       | (Return a, s') => k a s'
       | (Throw e, s') => (Throw e, s')
       | (Undefined, s') => (Undefined, s')
       end.

Declare Scope cpp_scope.
Delimit Scope cpp_scope with cpp.
Notation "'let*' x := c 'in' k" := (bind c (λ x, k))
  (at level 10, x name, c at level 100, k at level 200) : cpp_scope.
Notation "c ;;; k" := (bind c (λ _, k))
  (at level 100, k at level 200, right associativity) : cpp_scope.
Local Open Scope cpp_scope.

Definition get : M ChemicalState := λ s, (Return s, s).
Definition gets {A} (f : ChemicalState → A) : M A := λ s, (Return (f s), s).
Definition put (s' : ChemicalState) : M unit := λ _, (Return tt, s').
Definition modify (f : ChemicalState → ChemicalState) : M unit := λ s, (Return tt, f s).
Definition raise {A} (e : Exception) : M A := λ s, (Throw e, s).
Definition undefined {A} : M A := λ s, (Undefined, s).

(** Modelled from the spec: [Assert(condition, error, reason)] of
    [Exception.hpp], with which a mutator "validates and fails before
    mutating on violation": it raises the exception with the two texts
    when the condition is false. *)
Definition Assert (condition : bool) (error reason : string) : M unit :=
  if condition then ret tt else raise (Raised error reason).

(** A [for] loop over the given counters. *)
Fixpoint for_each (counters : list nat) (body : nat → M unit) : M unit :=
  match counters with
  | [] => ret tt
  | i :: rest => body i ;;; for_each rest body
  end.

(** [pimpl->n[i] = x], unchecked in the source: out of range is undefined
    behaviour. *)
Definition write_n (i : Index) (x : float) : M unit :=
  let* s := get in
  if decide (i < length (n s)) then put (with_n (<[i:=x]> (n s)) s) else undefined.

(** [pimpl->n[i]] read, unchecked in the source. *)
Definition read_n (i : Index) : M float :=
  let* s := get in
  match n s !! i with Some x => ret x | None => undefined end.

(** [v[i]] on a vector value, unchecked in the source. *)
Definition at_ (v : Vector) (i : Index) : M float :=
  match v !! i with Some x => ret x | None => undefined end.

(** ** [ChemicalState]: accessors and mutators *)

Section ChemicalState.
Context `{Externals}.

(** Modelled from the spec: [units::convert(x, from, to)], which raises
    when the units do not convert. *)
Definition convert (x : float) (from to : string) : M float :=
  if units_convertible from to then ret (units_convert x from to)
  else raise (NotConvertible from to).

(** Modelled from the spec: [ChemicalSystem::indexSpeciesWithError] and
    its siblings, which "fail with LookupError on unknown name" where
    [indexSpecies] returns the number of species. *)
Definition indexSpeciesWithError (name : string) : M Index :=
  let* sys := gets system in
  let i := indexSpecies sys name in
  if decide (i < numSpecies sys) then ret i else raise (UnknownSpecies name).

Definition indexElementWithError (name : string) : M Index :=
  let* sys := gets system in
  let i := indexElement sys name in
  if decide (i < numElements sys) then ret i else raise (UnknownElement name).

Definition indexPhaseWithError (name : string) : M Index :=
  let* sys := gets system in
  let i := indexPhase sys name in
  if decide (i < numPhases sys) then ret i else raise (UnknownPhase name).

Definition errorNonAmountOrMassUnits {A} (units : string) : M A :=
  raise (Raised "Cannot set the amount of the species."
    ("The provided units `" +:+ units +:+
     "` is not convertible to units of amount or mass (e.g., mol and kg).")).

Definition temperature : M float := gets T.
Definition pressure : M float := gets P.
Definition speciesAmounts : M Vector := gets n.
Definition elementPotentials : M Vector := gets y.
Definition speciesPotentials : M Vector := gets z.

Definition setTemperature (val : float) : M unit :=
  Assert (0 <? val)%float
    "Cannot set temperature of the chemical state with a non-positive value."
    EmptyString ;;;
  modify (with_T val).

Definition setTemperature_units (val : float) (units : string) : M unit :=
  let* kelvin := convert val units "kelvin" in
  setTemperature kelvin.

Definition setPressure (val : float) : M unit :=
  Assert (0 <? val)%float
    "Cannot set pressure of the chemical state with a non-positive value."
    EmptyString ;;;
  modify (with_P val).

Definition setPressure_units (val : float) (units : string) : M unit :=
  let* pascal := convert val units "pascal" in
  setPressure pascal.

(** [setSpeciesAmounts(double val)] *)
Definition setSpeciesAmounts_val (val : float) : M unit :=
  Assert (0 <=? val)%float
    "Cannot set the molar amounts of the species."
    "The given molar abount is negative." ;;;
  modify (λ s, with_n (fill val (n s)) s).

(** [setSpeciesAmounts(const Vector& n)] *)
Definition setSpeciesAmounts (v : Vector) : M unit :=
  let* sys := gets system in
  Assert (bool_decide (length v = numSpecies sys))
    "Cannot set the molar amounts of the species."
    "The dimension of the molar abundance vector is different than the number of species." ;;;
  modify (with_n v).

(** [rows(pimpl->n, indices) = v]: the entries of [v] written one by one
    at the given rows. *)
Fixpoint assign_rows (indices : Indices) (v : Vector) : M unit :=
  match indices, v with
  | i :: indices', x :: v' => write_n i x ;;; assign_rows indices' v'
  | _, _ => ret tt
  end.

(** [setSpeciesAmounts(const Vector& n, const Indices& indices)] *)
Definition setSpeciesAmounts_indices (v : Vector) (indices : Indices) : M unit :=
  Assert (bool_decide (length v = length indices))
    "Cannot set the molar amounts of the species with given indices."
    "The dimension of the molar abundance vector is different than the number of indices." ;;;
  assign_rows indices v.

(** [setSpeciesAmount(Index index, double amount)] *)
Definition setSpeciesAmount (index : Index) (amount : float) : M unit :=
  let* sys := gets system in
  let num_species := length (species sys) in
  Assert (0 <=? amount)%float
    "Cannot set the molar amount of the species."
    "The given molar amount is negative." ;;;
  Assert (bool_decide (index < num_species))
    "Cannot set the molar amount of the species."
    "The given index is out-of-range." ;;;
  write_n index amount.

(** [setSpeciesAmount(std::string species, double amount)] *)
Definition setSpeciesAmount_name (name : string) (amount : float) : M unit :=
  let* index := indexSpeciesWithError name in
  setSpeciesAmount index amount.

(** [system().species(index)], an unchecked [std::vector] access. *)
Definition system_species (index : Index) : M Species :=
  let* sys := gets system in
  match species sys !! index with Some sp => ret sp | None => undefined end.

(** [setSpeciesAmount(Index index, double amount, std::string units)] *)
Definition setSpeciesAmount_units (index : Index) (amount : float) (units : string) : M unit :=
  if units_convertible units "mol" then
    let* mol := convert amount units "mol" in
    setSpeciesAmount index mol
  else if units_convertible units "kg" then
    let* sp := system_species index in
    let molar_mass := molarMass sp in
    let* kg := convert amount units "kg" in
    setSpeciesAmount index (kg / molar_mass)%float
  else errorNonAmountOrMassUnits units.

(** [setSpeciesAmount(std::string species, double amount, std::string units)] *)
Definition setSpeciesAmount_name_units (name : string) (amount : float) (units : string) : M unit :=
  let* index := indexSpeciesWithError name in
  setSpeciesAmount_units index amount units.

Definition setElementPotentials (v : Vector) : M unit := modify (with_y v).
Definition setSpeciesPotentials (v : Vector) : M unit := modify (with_z v).

(** [pimpl->n[i] *= scalar] *)
Definition scale_n (scalar : float) (i : Index) : M unit :=
  let* x := read_n i in
  write_n i (x * scalar)%float.

Definition scaleSpeciesAmounts (scalar : float) : M unit :=
  Assert (0 <=? scalar)%float
    "Cannot scale the molar amounts of the species."
    "The given scalar is negative." ;;;
  let* rows := gets (λ s, length (n s)) in
  for_each (seq 0 rows) (scale_n scalar).

Definition scaleSpeciesAmountsInPhase (index : Index) (scalar : float) : M unit :=
  let* sys := gets system in
  Assert (0 <=? scalar)%float
    "Cannot scale the molar amounts of the species."
    ("The given scalar `" +:+ to_string scalar +:+ "` is negative.") ;;;
  Assert (bool_decide (index < numPhases sys))
    "Cannot set the volume of the phase."
    "The given phase index is out of range." ;;;
  let start := indexFirstSpeciesInPhase sys index in
  let size := numSpeciesInPhase sys index in
  for_each (seq 0 size) (λ i, scale_n scalar (start + i)).

Definition setVolume (volume : float) : M unit :=
  Assert (0 <=? volume)%float
    "Cannot set the volume of the chemical state."
    "The given volume is negative." ;;;
  let* T_ := temperature in
  let* P_ := pressure in
  let* n_ := speciesAmounts in
  let* sys := gets system in
  let v := phaseVolumes sys T_ P_ n_ in
  let vtotal := sum v in
  let scalar := (if negb (vtotal =? 0) then volume / vtotal else 0)%float in
  scaleSpeciesAmounts scalar.

(** [setPhaseVolume(Index index, double volume)] *)
Definition setPhaseVolume (index : Index) (volume : float) : M unit :=
  let* sys := gets system in
  Assert (0 <=? volume)%float
    "Cannot set the volume of the phase."
    "The given volume is negative." ;;;
  Assert (bool_decide (index < numPhases sys))
    "Cannot set the volume of the phase."
    "The given phase index is out of range." ;;;
  let* T_ := temperature in
  let* P_ := pressure in
  let* n_ := speciesAmounts in
  let v := phaseVolumes sys T_ P_ n_ in
  let* vi := at_ v index in
  let scalar := (if negb (vi =? 0) then volume / vi else 0)%float in
  scaleSpeciesAmountsInPhase index scalar.

(** [setPhaseVolume(std::string name, double volume)] *)
Definition setPhaseVolume_name (name : string) (volume : float) : M unit :=
  let* sys := gets system in
  let index := indexPhase sys name in
  setPhaseVolume index volume.

(** [speciesAmount(Index index)] *)
Definition speciesAmount (index : Index) : M float :=
  let* sys := gets system in
  Assert (bool_decide (index < numSpecies sys))
    "Cannot get the molar amount of the species."
    "The given index is out-of-range." ;;;
  read_n index.

(** [speciesAmount(std::string name)] *)
Definition speciesAmount_name (name : string) : M float :=
  let* index := indexSpeciesWithError name in
  speciesAmount index.

(** [speciesAmount(Index ispecies, std::string units)] *)
Definition speciesAmount_units (ispecies : Index) (units : string) : M float :=
  let* mol := speciesAmount ispecies in
  convert mol "mol" units.

(** [speciesAmount(std::string species, std::string units)] *)
Definition speciesAmount_name_units (name units : string) : M float :=
  let* mol := speciesAmount_name name in
  convert mol "mol" units.

(** [elementAmount(Index ielement)] *)
Definition elementAmount (ielement : Index) : M float :=
  let* sys := gets system in
  let* n_ := speciesAmounts in
  ret (system_elementAmount sys ielement n_).

(** [elementAmount(std::string element)] *)
Definition elementAmount_name (element : string) : M float :=
  let* ielement := indexElementWithError element in
  elementAmount ielement.

(** [elementAmount(std::string name, std::string units)] *)
Definition elementAmount_name_units (name units : string) : M float :=
  let* mol := elementAmount_name name in
  convert mol "mol" units.

(** [elementAmountInPhase(Index ielement, Index iphase)] *)
Definition elementAmountInPhase (ielement iphase : Index) : M float :=
  let* sys := gets system in
  let* n_ := speciesAmounts in
  ret (system_elementAmountInPhase sys ielement iphase n_).

(** [elementAmountInPhase(std::string element, std::string phase)] *)
Definition elementAmountInPhase_name (element phase : string) : M float :=
  let* ielement := indexElementWithError element in
  let* iphase := indexPhaseWithError phase in
  elementAmountInPhase ielement iphase.

(** [elementAmountInPhase(std::string element, std::string phase, std::string units)] *)
Definition elementAmountInPhase_name_units (element phase units : string) : M float :=
  let* mol := elementAmountInPhase_name element phase in
  convert mol "mol" units.

(** ** Operators on states

    The operands are [const] references; the result is a fresh state, on
    which the mutator runs. *)

Definition result_state (r : Result unit * ChemicalState) : Result ChemicalState :=
  match r with
  | (Return _, res) => Return res
  | (Throw e, _) => Throw e
  | (Undefined, _) => Undefined
  end.

(** [operator+(const ChemicalState& l, const ChemicalState& r)] *)
Definition operator_plus (l r : ChemicalState) : Result ChemicalState :=
  match vadd (n l) (n r) with
  | Some sum_ => result_state (setSpeciesAmounts sum_ l)
  | None => Undefined
  end.

(** [operator*(double scalar, const ChemicalState& state)] *)
Definition operator_times (scalar : float) (state : ChemicalState) : Result ChemicalState :=
  result_state (scaleSpeciesAmounts scalar state).

(** [operator*(const ChemicalState& state, double scalar)] *)
Definition operator_times_r (state : ChemicalState) (scalar : float) : Result ChemicalState :=
  operator_times scalar state.

(** ** Objects

    A [ChemicalState] object owns its [Impl] through [pimpl]; the copy
    constructor allocates a new [Impl].  The store lists the [Impl]
    objects alive, an object is the address its [pimpl] holds. *)

Abbreviation Store := (list ChemicalState) (only parsing).
Abbreviation Object := nat (only parsing).

(** [ChemicalState(const ChemicalState& other)], which initialises [pimpl]
    with a new [Impl] copied from the one of [other]. *)
Definition copy_construct (other : Object) (h : Store) : option (Object * Store) :=
  match h !! other with
  | Some impl => Some (length h, h ++ [impl])
  | None => None
  end.

(** A member function called on the object [this]. *)
Definition member {A} (this : Object) (m : M A) (h : Store) : option (Result A * Store) :=
  match h !! this with
  | Some impl => let '(r, impl') := m impl in Some (r, <[this:=impl']> h)
  | None => None
  end.

(** [operator+] on objects: [ChemicalState res = l;] then
    [res.setSpeciesAmounts(nl + nr);] then [return res;]. *)
Definition operator_plus_objects (l r : Object) (h : Store) :
    option (Result Object * Store) :=
  match h !! l, h !! r with
  | Some impl_l, Some impl_r =>
      let nl := n impl_l in
      let nr := n impl_r in
      match copy_construct l h with
      | Some (res, h1) =>
          match vadd nl nr with
          | Some sum_ =>
              match member res (setSpeciesAmounts sum_) h1 with
              | Some (Return _, h2) => Some (Return res, h2)
              | Some (Throw e, h2) => Some (Throw e, h2)
              | Some (Undefined, h2) => Some (Undefined, h2)
              | None => None
              end
          | None => Some (Undefined, h1)
          end
      | None => None
      end
  | _, _ => None
  end.

(** ** [extract] *)

Fixpoint is_any_of (c : Ascii.ascii) (delims : string) : bool :=
  match delims with
  | EmptyString => false
  | String d rest => if Ascii.eqb c d then true else is_any_of c rest
  end.

Definition push_word (word : string) (words : list string) : list string :=
  match word with
  | EmptyString => words
  | _ => word :: words
  end.

Fixpoint split_from (delims word str : string) : list string :=
  match str with
  | EmptyString => push_word word []
  | String c rest =>
      if is_any_of c delims
      then push_word word (split_from delims EmptyString rest)
      else split_from delims (word +:+ String c EmptyString) rest
  end.

(** Modelled from the spec: [split(str, delims)] of [StringUtils.hpp],
    which cuts an expression of the shape [<kind>[<name>](:<units>)] into
    its words: the maximal runs of characters that are not delimiters, in
    order. *)
Definition split (str delims : string) : list string :=
  split_from delims EmptyString str.

(** [words[i]] on a [std::vector<std::string>], unchecked in the source. *)
Definition word_at (words : list string) (i : nat) : M string :=
  match words !! i with Some w => ret w | None => undefined end.

(** [words.back()], undefined on an empty vector. *)
Definition back (words : list string) : M string :=
  match last words with Some w => ret w | None => undefined end.

(** [quantity[0]]: on an empty [std::string] this is the terminating
    null character. *)
Definition first_char (str : string) : Ascii.ascii :=
  match str with
  | String c _ => c
  | EmptyString => Ascii.zero
  end.

Definition is_empty (str : string) : bool :=
  match str with EmptyString => true | _ => false end.

Definition extract (str : string) : M float :=
  let words := split str ":" in
  let* quantity := word_at words 0 in
  let* units := (if decide (1 < length words) then word_at words 1 else ret EmptyString) in
  let* T_ := temperature in
  let* P_ := pressure in
  let* n_ := speciesAmounts in
  let* sys := gets system in
  let a := activities sys T_ P_ n_ in
  if Ascii.eqb (first_char quantity) "n"%char then
    let units := if is_empty units then "mol" else units in
    let* name := back (split quantity "[]") in
    speciesAmount_name_units name units
  else if Ascii.eqb (first_char quantity) "b"%char then
    let units := if is_empty units then "mol" else units in
    let names := split quantity "[]" in
    let* element := word_at names 1 in
    let* phase := (if decide (2 < length names) then word_at names 2 else ret EmptyString) in
    if is_empty phase
    then elementAmount_name_units element units
    else elementAmountInPhase_name_units element phase units
  else if Ascii.eqb (first_char quantity) "m"%char then
    let units := if is_empty units then "molal" else units in
    let* name := back (split quantity "[]") in
    let* nH2O := speciesAmount_name "H2O(l)" in
    let* ni := speciesAmount_name name in
    let mi := (ni / (nH2O * waterMolarMass))%float in
    convert mi "molal" units
  else if Ascii.eqb (first_char quantity) "a"%char then
    let* name := back (split quantity "[]") in
    let index := indexSpecies sys name in
    at_ a index
  else if String.eqb quantity "pH" then
    let iH := indexSpecies sys "H+" in
    let* aH := at_ a iH in
    ret (- log10 aH)%float
  else
    raise (Raised "Cannot extract the quantity from the ChemicalState instance."
      ("The provided string `" +:+ str +:+ "` does not represent a valid quantity.")).

End ChemicalState.

(** ** [Partition] *)

Module Partition.

(** [Partition::Impl] *)
Record Partition : Type := {
  indices_equilibrium_species : Indices;
  indices_kinetic_species : Indices;
  indices_inert_species : Indices;
}.

Definition equilibriumSpeciesIndices := indices_equilibrium_species.
Definition kineticSpeciesIndices := indices_kinetic_species.
Definition inertSpeciesIndices := indices_inert_species.

(** Modelled from the spec: [range], [unify] and [difference] of
    [SetUtils.hpp]: "all indices", the union of two index collections and
    "all indices minus" a collection.  [difference] keeps the entries of
    its first argument that are not in the second, in their order; [unify]
    lists every entry of either argument once. *)
Definition range (last : nat) : Indices := seq 0 last.
Definition unify (values1 values2 : Indices) : Indices :=
  remove_dups (values1 ++ values2).
Definition difference (values1 values2 : Indices) : Indices :=
  list_difference values1 values2.

Definition allEquilibrium (sys : ChemicalSystem) : Partition :=
  let iequilibrium := range (length (species sys)) in
  Build_Partition iequilibrium [] [].

Definition allKinetic (sys : ChemicalSystem) : Partition :=
  let ikinetic := range (length (species sys)) in
  Build_Partition [] ikinetic [].

Definition allEquilibriumExcept (sys : ChemicalSystem) (ikinetic iinert : Indices) : Partition :=
  let iequilibrium := range (length (species sys)) in
  let iequilibrium := difference iequilibrium (unify ikinetic iinert) in
  Build_Partition iequilibrium ikinetic iinert.

Definition allKineticExcept (sys : ChemicalSystem) (iequilibrium iinert : Indices) : Partition :=
  let ikinetic := range (length (species sys)) in
  let ikinetic := difference ikinetic (unify iequilibrium iinert) in
  Build_Partition iequilibrium ikinetic iinert.

End Partition.

(** ** The mutator calls, as data *)

(** One constructor per mutator of [ChemicalState] and per overload, with
    the arguments of the call. *)
Inductive Mutation : Type :=
  | SetTemperature (val : float)
  | SetTemperatureUnits (val : float) (units : string)
  | SetPressure (val : float)
  | SetPressureUnits (val : float) (units : string)
  | SetSpeciesAmountsVal (val : float)
  | SetSpeciesAmounts (v : Vector)
  | SetSpeciesAmountsIndices (v : Vector) (indices : Indices)
  | SetSpeciesAmount (index : Index) (amount : float)
  | SetSpeciesAmountName (name : string) (amount : float)
  | SetSpeciesAmountUnits (index : Index) (amount : float) (units : string)
  | SetSpeciesAmountNameUnits (name : string) (amount : float) (units : string)
  | SetElementPotentials (v : Vector)
  | SetSpeciesPotentials (v : Vector)
  | SetVolume (volume : float)
  | SetPhaseVolume (index : Index) (volume : float)
  | SetPhaseVolumeName (name : string) (volume : float)
  | ScaleSpeciesAmounts (scalar : float)
  | ScaleSpeciesAmountsInPhase (index : Index) (scalar : float).

Definition call `{Externals} (m : Mutation) : M unit :=
  match m with
  | SetTemperature val => setTemperature val
  | SetTemperatureUnits val units => setTemperature_units val units
  | SetPressure val => setPressure val
  | SetPressureUnits val units => setPressure_units val units
  | SetSpeciesAmountsVal val => setSpeciesAmounts_val val
  | SetSpeciesAmounts v => setSpeciesAmounts v
  | SetSpeciesAmountsIndices v indices => setSpeciesAmounts_indices v indices
  | SetSpeciesAmount index amount => setSpeciesAmount index amount
  | SetSpeciesAmountName name amount => setSpeciesAmount_name name amount
  | SetSpeciesAmountUnits index amount units => setSpeciesAmount_units index amount units
  | SetSpeciesAmountNameUnits name amount units => setSpeciesAmount_name_units name amount units
  | SetElementPotentials v => setElementPotentials v
  | SetSpeciesPotentials v => setSpeciesPotentials v
  | SetVolume volume => setVolume volume
  | SetPhaseVolume index volume => setPhaseVolume index volume
  | SetPhaseVolumeName name volume => setPhaseVolume_name name volume
  | ScaleSpeciesAmounts scalar => scaleSpeciesAmounts scalar
  | ScaleSpeciesAmountsInPhase index scalar => scaleSpeciesAmountsInPhase index scalar
  end.

(** ** Predicates of the data model *)

Definition nonneg (x : float) : Prop := (0 <=? x)%float = true.
Definition is_positive (x : float) : Prop := (0 <? x)%float = true.
Definition is_negative (x : float) : Prop := (x <? 0)%float = true.
Definition not_nan (x : float) : Prop := is_nan x = false.

(** The order [0 <= x] read on the specification of binary64: a zero of
    either sign, a finite number or an infinity with a clear sign bit. *)
Definition SF_nonneg (x : spec_float) : Prop :=
  match x with
  | S754_zero _ | S754_finite false _ _ | S754_infinity false => True
  | _ => False
  end.

Definition SF_signed (sx : bool) (x : spec_float) : Prop :=
  match x with
  | S754_zero s | S754_infinity s | S754_finite s _ _ => s = sx
  | S754_nan => True
  end.

(** "T > 0, P > 0, n >= 0 componentwise". *)
Definition invariant (s : ChemicalState) : Prop :=
  is_positive (T s) ∧ is_positive (P s) ∧ Forall nonneg (n s).

(** The amount vector has one entry per species. *)
Definition sized (s : ChemicalState) : Prop :=
  length (n s) = numSpecies (system s).

(** The states a program can hold: built by the constructor, then changed
    by mutator calls that returned. *)
Inductive reachable `{Externals} : ChemicalState → Prop :=
  | reachable_new sys : reachable (ChemicalState_new sys)
  | reachable_call m s s' :
      reachable s → call m s = (Return tt, s') → reachable s'.

(** At the state's T, P and n the property model returns one activity per
    species. *)
Definition activities_sized (s : ChemicalState) : Prop :=
  length (activities (system s) (T s) (P s) (n s)) = numSpecies (system s).

(** What the vector overloads of [setSpeciesAmounts] are given. *)
Definition given_amounts (m : Mutation) : Vector :=
  match m with
  | SetSpeciesAmounts v | SetSpeciesAmountsIndices v _ => v
  | _ => []
  end.

(** The mutators that multiply amounts by a scalar. *)
Definition scales (m : Mutation) : bool :=
  match m with
  | SetVolume _ | SetPhaseVolume _ _ | SetPhaseVolumeName _ _
  | ScaleSpeciesAmounts _ | ScaleSpeciesAmountsInPhase _ _ => true
  | _ => false
  end.

(** The entries of [v] at the positions [start], ..., [start + size - 1]
    multiplied by [scalar]. *)
Definition scale_rows (scalar : float) (start size : nat) (v : Vector) : Vector :=
  imap (λ i x, if decide (start ≤ i < start + size) then (x * scalar)%float else x) v.

(** How a computation treats the state: it never writes; when it throws,
    nothing has been written; it never throws. *)
Definition reads {A} (m : M A) : Prop := ∀ s, (m s).2 = s.
Definition atomic {A} (m : M A) : Prop := ∀ s e s', m s = (Throw e, s') → s' = s.
Definition nothrow {A} (m : M A) : Prop := ∀ s e s', m s ≠ (Throw e, s').

(** No character of [str] is one of [delims]. *)
Fixpoint none_of (delims str : string) : bool :=
  match str with
  | EmptyString => true
  | String c rest => negb (is_any_of c delims) && none_of delims rest
  end.

(** A name that [split] leaves whole: not empty and free of [:], [[] and
    []]. *)
Definition plain_name (name : string) : Prop :=
  name ≠ EmptyString ∧ none_of ":[]" name = true.

(** ** A small system for the examples *)

Module Examples.

Definition dimension (units : string) : option (nat * float) :=
  if String.eqb units "mol" then Some (0, 1%float)
  else if String.eqb units "mmol" then Some (0, 0.001%float)
  else if String.eqb units "kg" then Some (1, 1%float)
  else if String.eqb units "g" then Some (1, 0.001%float)
  else if String.eqb units "kelvin" then Some (2, 1%float)
  else if String.eqb units "pascal" then Some (3, 1%float)
  else if String.eqb units "molal" then Some (4, 1%float)
  else None.

(** A table of seven units, a stand-in for [std::log10] that is exact at
    1, 10 and 100, and the molar mass of water. *)
#[export] Instance externals : Externals := {|
  units_convertible from to :=
    match dimension from, dimension to with
    | Some (d1, _), Some (d2, _) => bool_decide (d1 = d2)
    | _, _ => false
    end;
  units_convert x from to :=
    match dimension from, dimension to with
    | Some (_, f1), Some (_, f2) => (x * f1 / f2)%float
    | _, _ => x
    end;
  waterMolarMass := 0.018015268%float;
  log10 x :=
    if (x =? 1)%float then 0%float
    else if (x =? 10)%float then 1%float
    else if (x =? 100)%float then 2%float
    else nan;
  to_string _ := "?";
|}.

Definition H2O : Species := {| species_name := "H2O(l)"; molarMass := 0.018015268%float |}.
Definition H : Species := {| species_name := "H+"; molarMass := 0.00100794%float |}.
Definition OH : Species := {| species_name := "OH-"; molarMass := 0.01700734%float |}.
Definition CO2g : Species := {| species_name := "CO2(g)"; molarMass := 0.0440095%float |}.

Definition aqueous : Phase := {| phase_name := "Aqueous"; phase_species := [H2O; H; OH] |}.
Definition gaseous : Phase := {| phase_name := "Gaseous"; phase_species := [CO2g] |}.

(** Two phases, four species; each phase's volume is the sum of its
    amounts and each activity is ten times the amount. *)
Definition sys : ChemicalSystem := {|
  phases := [aqueous; gaseous];
  element_names := ["H"; "O"; "C"];
  phaseVolumes _ _ v := [sum (take 3 v); sum (drop 3 v)];
  activities _ _ v := (λ x, x * 10)%float <$> v;
  system_elementAmount _ v := sum v;
  system_elementAmountInPhase _ _ v := sum v;
|}.

Definition s0 : ChemicalState := ChemicalState_new sys.

Definition s1 : ChemicalState := with_n [55.5; 1; 1; 2]%float s0.

End Examples.

(** ** Further notions for the statements *)

(** The vector after [rows(n, indices) = v] when every index is in
    range: the entries of [v] stored one after the other. *)
Fixpoint assigned (indices : Indices) (v : Vector) (rows : Vector) : Vector :=
  match indices, v with
  | i :: indices', x :: v' => assigned indices' v' (<[i:=x]> rows)
  | _, _ => rows
  end.

(** The three index sets split the species indices [0 .. N-1]: no entry
    is out of range and every index below [N] is in exactly one set. *)
Definition splits_species (N : nat) (p : Partition.Partition) : Prop :=
  let E := Partition.equilibriumSpeciesIndices p in
  let K := Partition.kineticSpeciesIndices p in
  let I := Partition.inertSpeciesIndices p in
  (∀ i, i ∈ E ∨ i ∈ K ∨ i ∈ I → i < N) ∧
  (∀ i, i < N →
     (i ∈ E ∧ (i ∉ K) ∧ (i ∉ I)) ∨
     ((i ∉ E) ∧ i ∈ K ∧ (i ∉ I)) ∨
     ((i ∉ E) ∧ (i ∉ K) ∧ i ∈ I)).

(** The calls whose arguments pass the checks and reach an unchecked
    access: a row index beyond the amounts, a species index beyond the
    species when the molar mass is read, a phase index beyond the volumes
    the property model returned. *)
Definition unchecked `{Externals} (m : Mutation) (s : ChemicalState) : Prop :=
  match m with
  | SetSpeciesAmountsIndices v indices =>
      length v = length indices ∧ ∃ i, i ∈ indices ∧ length (n s) ≤ i
  | SetSpeciesAmountUnits index _ units =>
      numSpecies (system s) ≤ index ∧
      units_convertible units "mol" = false ∧
      units_convertible units "kg" = true
  | SetPhaseVolume index volume =>
      nonneg volume ∧ index < numPhases (system s) ∧
      length (phaseVolumes (system s) (T s) (P s) (n s)) ≤ index
  | SetPhaseVolumeName name volume =>
      nonneg volume ∧ indexPhase (system s) name < numPhases (system s) ∧
      length (phaseVolumes (system s) (T s) (P s) (n s)) ≤
      indexPhase (system s) name
  | _ => False
  end.

(** The inputs on which [extract] reads out of range: an expression
    without a word before its first colon ([words[0]]), a [b] query
    without a bracketed name ([names[1]]), and an activity or pH query
    whose species index is no row of the activities ([a.val[index]],
    [a.val[iH]]). *)
Definition extract_unchecked (str : string) (s : ChemicalState) : Prop :=
  let a := activities (system s) (T s) (P s) (n s) in
  match split str ":" with
  | [] => True
  | quantity :: _ =>
      let names := split quantity "[]" in
      if Ascii.eqb (first_char quantity) "b"%char then length names < 2
      else if Ascii.eqb (first_char quantity) "a"%char then
        ∃ name, last names = Some name ∧ length a ≤ indexSpecies (system s) name
      else quantity = "pH" ∧ length a ≤ indexSpecies (system s) "H+"
  end.

(** The value a query returned, through a function on values. *)
Definition result_map {A B} (f : A → B) (r : Result A) : Result B :=
  match r with
  | Return a => Return (f a)
  | Throw e => Throw e
  | Undefined => Undefined
  end.

(** A string of [k] colons; the empty string for [k = 0]. *)
Fixpoint colons (k : nat) : string :=
  match k with
  | 0 => EmptyString
  | S k' => String ":" (colons k')
  end.

(** The first word of an expression names none of the quantities. *)
Definition unknown_quantity (quantity : string) : Prop :=
  Ascii.eqb (first_char quantity) "n"%char = false ∧
  Ascii.eqb (first_char quantity) "b"%char = false ∧
  Ascii.eqb (first_char quantity) "m"%char = false ∧
  Ascii.eqb (first_char quantity) "a"%char = false ∧
  String.eqb quantity "pH" = false.

(** * Facts *)

(** ** IEEE comparisons and signs *)

Section Doubles.

Lemma nonneg_Prim2SF x : nonneg x ↔ SF_nonneg (Prim2SF x).
Proof.
  unfold nonneg. rewrite FloatAxioms.leb_spec. unfold SFleb.
  change (Prim2SF 0) with (S754_zero false).
  destruct (Prim2SF x) as [s|s| |s m e]; simpl; try destruct s; simpl;
    intuition congruence.
Qed.

Lemma not_nan_Prim2SF x : not_nan x ↔ Prim2SF x ≠ S754_nan.
Proof.
  unfold not_nan, is_nan. rewrite FloatAxioms.eqb_spec. unfold SFeqb.
  destruct (Prim2SF x) as [s|s| |s m e]; simpl.
  - intuition congruence.
  - destruct s; simpl; intuition congruence.
  - intuition congruence.
  - unfold SFcompare.
    destruct s; rewrite Z.compare_refl, Pos.compare_cont_refl; simpl;
      intuition congruence.
Qed.

Lemma negative_not_nonneg x : is_negative x → (0 <=? x)%float = false.
Proof.
  unfold is_negative. rewrite FloatAxioms.ltb_spec, FloatAxioms.leb_spec.
  unfold SFltb, SFleb. change (Prim2SF 0) with (S754_zero false).
  destruct (Prim2SF x) as [[]|[]| |[] m e]; simpl; congruence.
Qed.

(** Rounding keeps the sign it is given, and a mantissa that is not
    negative never rounds to NaN. *)

Lemma binary_round_aux_signed sx mx ex lx :
  SF_signed sx (binary_round_aux prec emax sx mx ex lx).
Proof.
  unfold binary_round_aux.
  destruct (shr_fexp prec emax mx ex lx) as [mrs' e'].
  destruct (shr_fexp prec emax _ e' loc_Exact) as [mrs'' e''].
  destruct (shr_m mrs''); simpl; trivial.
  destruct (Z.leb _ _); simpl; trivial.
Qed.

Lemma shr_1_nonneg mrs : (0 ≤ shr_m mrs)%Z → (0 ≤ shr_m (shr_1 mrs))%Z.
Proof. destruct mrs as [[|[p|p|]|[p|p|]] r s']; simpl; lia. Qed.

Lemma iter_pos_invariant {A} (f : A → A) (Inv : A → Prop) :
  (∀ x, Inv x → Inv (f x)) → ∀ p x, Inv x → Inv (@SpecFloat.iter_pos A f p x).
Proof.
  intros Hf p. induction p as [p IH|p IH|]; simpl; intros x Hx; auto.
Qed.

Lemma shr_fexp_nonneg m e l :
  (0 ≤ m)%Z → (0 ≤ shr_m (shr_fexp prec emax m e l).1)%Z.
Proof.
  intros Hm. unfold shr_fexp, shr.
  assert (0 ≤ shr_m (shr_record_of_loc m l))%Z as H0
    by (destruct l as [|[]]; simpl; lia).
  destruct (_ - e)%Z; simpl; auto.
  apply (iter_pos_invariant shr_1 (λ r, (0 ≤ shr_m r)%Z)); auto using shr_1_nonneg.
Qed.

Lemma round_nearest_even_nonneg mx lx :
  (0 ≤ mx)%Z → (0 ≤ round_nearest_even mx lx)%Z.
Proof.
  intros Hm. unfold round_nearest_even.
  destruct lx as [|[]]; try destruct (Z.even mx); lia.
Qed.

Lemma binary_round_aux_not_nan sx mx ex lx :
  (0 ≤ mx)%Z → binary_round_aux prec emax sx mx ex lx ≠ S754_nan.
Proof.
  intros Hm. unfold binary_round_aux.
  pose proof (shr_fexp_nonneg mx ex lx Hm) as H1.
  destruct (shr_fexp prec emax mx ex lx) as [mrs' e']. simpl in H1.
  pose proof (shr_fexp_nonneg _ e' loc_Exact
    (round_nearest_even_nonneg _ (loc_of_shr_record mrs') H1)) as H2.
  destruct (shr_fexp prec emax _ e' loc_Exact) as [mrs'' e'']. simpl in H2.
  destruct (shr_m mrs''); try lia; try congruence.
  destruct (Z.leb _ _); congruence.
Qed.

Lemma binary_round_nonneg mx ex : SF_nonneg (binary_round prec emax false mx ex).
Proof.
  unfold binary_round. destruct (shl_align _ _ _) as [mz ez].
  pose proof (binary_round_aux_signed false (Z.pos mz) ez loc_Exact) as Hs.
  pose proof (binary_round_aux_not_nan false (Z.pos mz) ez loc_Exact) as Hn.
  destruct (binary_round_aux _ _ _ _ _ _) as [s|s| |s m e]; simpl in *;
    subst; try done.
  apply Hn; [lia | done].
Qed.

(** The sum of two doubles that are [>= 0] is [>= 0]. *)
Lemma nonneg_add x y : nonneg x → nonneg y → nonneg (x + y).
Proof.
  rewrite !nonneg_Prim2SF, FloatAxioms.add_spec. unfold SF64add, SFadd.
  destruct (Prim2SF x) as [[]|[]| |[] mx ex]; try done;
    destruct (Prim2SF y) as [[]|[]| |[] my ey]; try done.
  intros _ _.
  generalize (shl_align mx ex (Z.min ex ey)).1, (shl_align my ey (Z.min ex ey)).1.
  intros a b. apply binary_round_nonneg.
Qed.

(** The product of two doubles that are [>= 0] is [>= 0] unless it is
    NaN, which is the product of a zero and an infinity. *)
Lemma nonneg_mul x y : nonneg x → nonneg y → not_nan (x * y) → nonneg (x * y).
Proof.
  rewrite !nonneg_Prim2SF, not_nan_Prim2SF, FloatAxioms.mul_spec.
  unfold SF64mul, SFmul.
  destruct (Prim2SF x) as [[]|[]| |[] mx ex]; try done;
    destruct (Prim2SF y) as [[]|[]| |[] my ey]; try done.
  intros _ _ Hnan.
  pose proof (binary_round_aux_signed (xorb false false)
    (Z.pos (mx * my)) (ex + ey) loc_Exact) as Hs.
  destruct (binary_round_aux _ _ _ _ _ _) as [s|s| |s m e]; simpl in *;
    subst; done.
Qed.

End Doubles.

(** ** The monad *)

Section Monad.
Context {A B : Type}.

Lemma bind_Return (m : M A) (k : A → M B) s a s' :
  m s = (Return a, s') → bind m k s = k a s'.
Proof. unfold bind. by intros ->. Qed.

Lemma bind_Throw (m : M A) (k : A → M B) s e s' :
  m s = (Throw e, s') → bind m k s = (Throw e, s').
Proof. unfold bind. by intros ->. Qed.

Lemma bind_Undefined (m : M A) (k : A → M B) s s' :
  m s = (Undefined, s') → bind m k s = (Undefined, s').
Proof. unfold bind. by intros ->. Qed.

Lemma reads_ret (a : A) : reads (ret a).
Proof. done. Qed.

Lemma reads_gets (f : ChemicalState → A) : reads (gets f).
Proof. done. Qed.

Lemma reads_raise e : reads (raise (A:=A) e).
Proof. done. Qed.

Lemma reads_undefined : reads (undefined (A:=A)).
Proof. done. Qed.

Lemma reads_bind (m : M A) (k : A → M B) :
  reads m → (∀ a, reads (k a)) → reads (bind m k).
Proof.
  intros Hm Hk s. unfold bind. specialize (Hm s).
  destruct (m s) as [[a| |] s1]; simpl in *; subst; [apply Hk|done..].
Qed.

Lemma reads_atomic (m : M A) : reads m → atomic m.
Proof. intros Hm s e s' Hs. specialize (Hm s). by rewrite Hs in Hm. Qed.

Lemma atomic_bind_reads (m : M A) (k : A → M B) :
  reads m → (∀ a, atomic (k a)) → atomic (bind m k).
Proof.
  intros Hm Hk s e s'. unfold bind. specialize (Hm s).
  destruct (m s) as [[a| |] s1]; simpl in *; subst; [apply Hk|congruence..].
Qed.

Lemma nothrow_bind (m : M A) (k : A → M B) :
  nothrow m → (∀ a, nothrow (k a)) → nothrow (bind m k).
Proof.
  intros Hm Hk s e s'. unfold bind. specialize (Hm s).
  destruct (m s) as [[a| |] s1]; [apply Hk| |done].
  intros [= <- <-]. by eapply Hm.
Qed.

Lemma nothrow_ret (a : A) : nothrow (ret a).
Proof. done. Qed.

Lemma nothrow_gets (f : ChemicalState → A) : nothrow (gets f).
Proof. done. Qed.

Lemma nothrow_undefined : nothrow (undefined (A:=A)).
Proof. done. Qed.

End Monad.

Lemma reads_Assert c error reason : reads (Assert c error reason).
Proof. by destruct c. Qed.

Lemma reads_get : reads get.
Proof. done. Qed.

Lemma nothrow_get : nothrow get.
Proof. done. Qed.

Lemma nothrow_put s : nothrow (put s).
Proof. done. Qed.

Lemma nothrow_modify f : nothrow (modify f).
Proof. done. Qed.

Create HintDb cpp.
#[export] Hint Resolve reads_ret reads_gets reads_raise reads_undefined
  reads_Assert reads_get nothrow_ret nothrow_gets nothrow_undefined
  nothrow_get nothrow_put nothrow_modify : cpp.

(** Goals on [reads], [atomic] and [nothrow] follow the shape of the
    computation. *)
Ltac by_shape :=
  repeat first
    [ progress intros
    | solve [eauto with cpp]
    | apply reads_bind
    | apply nothrow_bind
    | match goal with
      | |- context [if ?c then _ else _] => destruct c
      | |- context [match ?x with _ => _ end] => destruct x
      end ].

(** ** Loops and unchecked accesses *)

Lemma nothrow_write_n i x : nothrow (write_n i x).
Proof. unfold write_n. by_shape. Qed.

Lemma nothrow_read_n i : nothrow (read_n i).
Proof. unfold read_n. by_shape. Qed.

Lemma reads_read_n i : reads (read_n i).
Proof. unfold read_n. by_shape. Qed.

Lemma reads_at_ v i : reads (at_ v i).
Proof. unfold at_. by_shape. Qed.

Lemma nothrow_at_ v i : nothrow (at_ v i).
Proof. unfold at_. by_shape. Qed.

#[export] Hint Resolve nothrow_write_n nothrow_read_n reads_read_n reads_at_
  nothrow_at_ : cpp.

Lemma nothrow_for_each counters body :
  (∀ i, nothrow (body i)) → nothrow (for_each counters body).
Proof. intros Hb. induction counters; simpl; by_shape. Qed.

Lemma nothrow_scale_n scalar i : nothrow (scale_n scalar i).
Proof. unfold scale_n. by_shape. Qed.

Lemma nothrow_assign_rows indices v : nothrow (assign_rows indices v).
Proof.
  revert v. induction indices as [|i indices IH]; intros [|x v]; simpl; by_shape.
Qed.

#[export] Hint Resolve nothrow_for_each nothrow_scale_n nothrow_assign_rows : cpp.

Lemma with_n_id s : with_n (n s) s = s.
Proof. by destruct s. Qed.

Lemma with_n_with_n v w s : with_n v (with_n w s) = with_n v s.
Proof. done. Qed.

Lemma read_n_Some i x s : n s !! i = Some x → read_n i s = (Return x, s).
Proof. unfold read_n, bind, get. simpl. by intros ->. Qed.

Lemma write_n_lt i x s :
  i < length (n s) → write_n i x s = (Return tt, with_n (<[i:=x]> (n s)) s).
Proof. intros Hi. unfold write_n, bind, get, put. simpl. by rewrite decide_True. Qed.

Lemma write_n_ge i x s : length (n s) ≤ i → write_n i x s = (Undefined, s).
Proof.
  intros Hi. unfold write_n, bind, get, undefined. simpl.
  by rewrite decide_False by lia.
Qed.

Lemma scale_n_lt scalar i x s :
  n s !! i = Some x →
  scale_n scalar i s = (Return tt, with_n (<[i:=(x * scalar)%float]> (n s)) s).
Proof.
  intros Hx. unfold scale_n. erewrite bind_Return by by apply read_n_Some.
  apply write_n_lt. by eapply lookup_lt_Some.
Qed.

Lemma length_scale_rows scalar start size v :
  length (scale_rows scalar start size v) = length v.
Proof. apply length_imap. Qed.

Lemma lookup_scale_rows scalar start size v i :
  scale_rows scalar start size v !! i =
  (λ x, if decide (start ≤ i < start + size) then (x * scalar)%float else x) <$> v !! i.
Proof. apply list_lookup_imap. Qed.

Lemma scale_rows_0 scalar start v : scale_rows scalar start 0 v = v.
Proof.
  apply list_eq. intros i. rewrite lookup_scale_rows.
  destruct (v !! i); simpl; [|done]. by rewrite decide_False by lia.
Qed.

Lemma scale_rows_S scalar start size v x :
  v !! start = Some x →
  scale_rows scalar (S start) size (<[start:=(x * scalar)%float]> v) =
  scale_rows scalar start (S size) v.
Proof.
  intros Hx. apply list_eq. intros i. rewrite !lookup_scale_rows.
  destruct (decide (start = i)) as [<-|Hne].
  - rewrite list_lookup_insert_eq by by eapply lookup_lt_Some.
    rewrite Hx. simpl. rewrite decide_False by lia. by rewrite decide_True by lia.
  - rewrite list_lookup_insert_ne by done.
    destruct (v !! i); simpl; [|done]. repeat case_decide; done || lia.
Qed.

(** The whole vector scaled is the vector mapped. *)
Lemma scale_rows_all scalar v :
  scale_rows scalar 0 (length v) v = (λ x, x * scalar)%float <$> v.
Proof.
  apply list_eq. intros i. rewrite lookup_scale_rows, list_lookup_fmap.
  destruct (v !! i) eqn:Hi; simpl; [|done].
  apply lookup_lt_Some in Hi. by rewrite decide_True by lia.
Qed.

(** The loops of [scaleSpeciesAmounts] and [scaleSpeciesAmountsInPhase]:
    within the vector, the loop returns and has scaled exactly its rows. *)
Lemma for_each_scale_n scalar start size : ∀ k s,
  start + k + size ≤ length (n s) →
  for_each (seq k size) (λ i, scale_n scalar (start + i)) s =
  (Return tt, with_n (scale_rows scalar (start + k) size (n s)) s).
Proof.
  induction size as [|size IH]; intros k s Hlen; simpl.
  - by rewrite scale_rows_0, with_n_id.
  - destruct (lookup_lt_is_Some_2 (n s) (start + k)) as [x Hx]; [lia|].
    erewrite bind_Return by by apply scale_n_lt.
    rewrite IH by (simpl; rewrite length_insert; lia).
    simpl. rewrite with_n_with_n. f_equal. f_equal.
    replace (start + S k) with (S (start + k)) by lia.
    by apply scale_rows_S.
Qed.

(** ** Indices of names and of phases *)

Lemma index_elem_of name names :
  name ∈ names →
  index name names < length names ∧ names !! index name names = Some name.
Proof.
  induction names as [|x names IH]; [by intros ?%elem_of_nil|].
  intros Hin. simpl. destruct (String.eqb name x) eqn:Heq.
  - apply String.eqb_eq in Heq as ->. simpl. split; [lia|done].
  - apply String.eqb_neq in Heq. apply elem_of_cons in Hin as [?|Hin]; [done|].
    destruct (IH Hin). simpl. split; [lia|done].
Qed.

Lemma index_not_elem_of name names :
  name ∉ names → index name names = length names.
Proof.
  induction names as [|x names IH]; [done|].
  intros Hin. apply not_elem_of_cons in Hin as [Hne Hin]. simpl.
  apply String.eqb_neq in Hne as ->. by rewrite IH.
Qed.

Lemma collectSpecies_app ps qs :
  collectSpecies (ps ++ qs) = collectSpecies ps ++ collectSpecies qs.
Proof. unfold collectSpecies. by rewrite fmap_app, concat_app. Qed.

(** A phase's species range lies within the species of the system. *)
Lemma phase_range sys iphase :
  iphase < numPhases sys →
  indexFirstSpeciesInPhase sys iphase + numSpeciesInPhase sys iphase ≤ numSpecies sys.
Proof.
  unfold numPhases, indexFirstSpeciesInPhase, numSpeciesInPhase, numSpecies, species.
  intros Hi. destruct (lookup_lt_is_Some_2 _ _ Hi) as [p Hp]. rewrite Hp. simpl.
  pose proof (take_drop_middle _ _ _ Hp) as Hsplit.
  rewrite <-Hsplit at 2. rewrite collectSpecies_app, length_app.
  change (p :: drop (S iphase) (phases sys)) with ([p] ++ drop (S iphase) (phases sys)).
  rewrite collectSpecies_app, length_app.
  assert (collectSpecies [p] = phase_species p) as ->
    by (unfold collectSpecies; simpl; apply app_nil_r).
  lia.
Qed.

(** ** Accessors never write *)

Section Accessors.
Context `{Externals}.

Lemma reads_convert x from to : reads (convert x from to).
Proof. unfold convert. by_shape. Qed.

Lemma reads_indexSpeciesWithError name : reads (indexSpeciesWithError name).
Proof. unfold indexSpeciesWithError. by_shape. Qed.

Lemma reads_indexElementWithError name : reads (indexElementWithError name).
Proof. unfold indexElementWithError. by_shape. Qed.

Lemma reads_indexPhaseWithError name : reads (indexPhaseWithError name).
Proof. unfold indexPhaseWithError. by_shape. Qed.

Lemma reads_system_species index : reads (system_species index).
Proof. unfold system_species. by_shape. Qed.

Lemma reads_temperature : reads temperature.
Proof. done. Qed.

Lemma reads_pressure : reads pressure.
Proof. done. Qed.

Lemma reads_speciesAmounts : reads speciesAmounts.
Proof. done. Qed.

Lemma reads_elementPotentials : reads elementPotentials.
Proof. done. Qed.

Lemma reads_speciesPotentials : reads speciesPotentials.
Proof. done. Qed.

Hint Resolve reads_convert reads_indexSpeciesWithError
  reads_indexElementWithError reads_indexPhaseWithError reads_system_species
  reads_temperature reads_pressure reads_speciesAmounts : cpp.

Lemma reads_speciesAmount index : reads (speciesAmount index).
Proof. unfold speciesAmount. by_shape. Qed.

Hint Resolve reads_speciesAmount : cpp.

Lemma reads_speciesAmount_name name : reads (speciesAmount_name name).
Proof. unfold speciesAmount_name. by_shape. Qed.

Lemma reads_speciesAmount_units ispecies units :
  reads (speciesAmount_units ispecies units).
Proof. unfold speciesAmount_units. by_shape. Qed.

Hint Resolve reads_speciesAmount_name : cpp.

Lemma reads_speciesAmount_name_units name units :
  reads (speciesAmount_name_units name units).
Proof. unfold speciesAmount_name_units. by_shape. Qed.

Lemma reads_elementAmount ielement : reads (elementAmount ielement).
Proof. unfold elementAmount. by_shape. Qed.

Hint Resolve reads_elementAmount : cpp.

Lemma reads_elementAmount_name element : reads (elementAmount_name element).
Proof. unfold elementAmount_name. by_shape. Qed.

Hint Resolve reads_elementAmount_name : cpp.

Lemma reads_elementAmount_name_units name units :
  reads (elementAmount_name_units name units).
Proof. unfold elementAmount_name_units. by_shape. Qed.

Lemma reads_elementAmountInPhase ielement iphase :
  reads (elementAmountInPhase ielement iphase).
Proof. unfold elementAmountInPhase. by_shape. Qed.

Hint Resolve reads_elementAmountInPhase : cpp.

Lemma reads_elementAmountInPhase_name element phase :
  reads (elementAmountInPhase_name element phase).
Proof. unfold elementAmountInPhase_name. by_shape. Qed.

Hint Resolve reads_elementAmountInPhase_name : cpp.

Lemma reads_elementAmountInPhase_name_units element phase units :
  reads (elementAmountInPhase_name_units element phase units).
Proof. unfold elementAmountInPhase_name_units. by_shape. Qed.

Lemma reads_word_at words i : reads (word_at words i).
Proof. unfold word_at. by_shape. Qed.

Lemma reads_back words : reads (back words).
Proof. unfold back. by_shape. Qed.

Hint Resolve reads_speciesAmount_name_units reads_elementAmount_name_units
  reads_elementAmountInPhase_name_units reads_word_at reads_back : cpp.

Lemma reads_extract str : reads (extract str).
Proof. unfold extract. by_shape. Qed.

End Accessors.

#[export] Hint Resolve reads_convert reads_indexSpeciesWithError
  reads_indexElementWithError reads_indexPhaseWithError reads_system_species
  reads_temperature reads_pressure reads_speciesAmounts : cpp.

(** ** Mutators validate before they write *)

Lemma nothrow_atomic {A} (m : M A) : nothrow m → atomic m.
Proof. intros Hm s e s' Hs. by apply Hm in Hs. Qed.

(** A mutator is a run of reads and checks followed by writes that cannot
    throw, or by another mutator. *)
Ltac by_atomic :=
  repeat first
    [ progress intros
    | solve [eauto with cpp]
    | apply nothrow_atomic; solve [by_shape]
    | apply reads_atomic; solve [by_shape]
    | apply atomic_bind_reads; [solve [by_shape]|]
    | match goal with
      | |- context [if ?c then _ else _] => destruct c
      | |- context [match ?x with _ => _ end] => destruct x
      end ].

Section Mutators.
Context `{Externals}.

Lemma atomic_setTemperature val : atomic (setTemperature val).
Proof. unfold setTemperature. by_atomic. Qed.

Lemma atomic_setPressure val : atomic (setPressure val).
Proof. unfold setPressure. by_atomic. Qed.

Hint Resolve atomic_setTemperature atomic_setPressure : cpp.

Lemma atomic_setTemperature_units val units : atomic (setTemperature_units val units).
Proof. unfold setTemperature_units. by_atomic. Qed.

Lemma atomic_setPressure_units val units : atomic (setPressure_units val units).
Proof. unfold setPressure_units. by_atomic. Qed.

Lemma atomic_setSpeciesAmounts_val val : atomic (setSpeciesAmounts_val val).
Proof. unfold setSpeciesAmounts_val. by_atomic. Qed.

Lemma atomic_setSpeciesAmounts v : atomic (setSpeciesAmounts v).
Proof. unfold setSpeciesAmounts. by_atomic. Qed.

Lemma atomic_setSpeciesAmounts_indices v indices :
  atomic (setSpeciesAmounts_indices v indices).
Proof. unfold setSpeciesAmounts_indices. by_atomic. Qed.

Lemma atomic_setSpeciesAmount index amount : atomic (setSpeciesAmount index amount).
Proof. unfold setSpeciesAmount. by_atomic. Qed.

Hint Resolve atomic_setSpeciesAmount : cpp.

Lemma atomic_setSpeciesAmount_name name amount :
  atomic (setSpeciesAmount_name name amount).
Proof. unfold setSpeciesAmount_name. by_atomic. Qed.

Lemma atomic_setSpeciesAmount_units index amount units :
  atomic (setSpeciesAmount_units index amount units).
Proof. unfold setSpeciesAmount_units, errorNonAmountOrMassUnits. by_atomic. Qed.

Hint Resolve atomic_setSpeciesAmount_units : cpp.

Lemma atomic_setSpeciesAmount_name_units name amount units :
  atomic (setSpeciesAmount_name_units name amount units).
Proof. unfold setSpeciesAmount_name_units. by_atomic. Qed.

Lemma atomic_setElementPotentials v : atomic (setElementPotentials v).
Proof. unfold setElementPotentials. by_atomic. Qed.

Lemma atomic_setSpeciesPotentials v : atomic (setSpeciesPotentials v).
Proof. unfold setSpeciesPotentials. by_atomic. Qed.

Lemma atomic_scaleSpeciesAmounts scalar : atomic (scaleSpeciesAmounts scalar).
Proof. unfold scaleSpeciesAmounts. by_atomic. Qed.

Lemma atomic_scaleSpeciesAmountsInPhase index scalar :
  atomic (scaleSpeciesAmountsInPhase index scalar).
Proof. unfold scaleSpeciesAmountsInPhase. by_atomic. Qed.

Hint Resolve atomic_scaleSpeciesAmounts atomic_scaleSpeciesAmountsInPhase : cpp.

Lemma atomic_setVolume volume : atomic (setVolume volume).
Proof. unfold setVolume. by_atomic. Qed.

Lemma atomic_setPhaseVolume index volume : atomic (setPhaseVolume index volume).
Proof. unfold setPhaseVolume. by_atomic. Qed.

Hint Resolve atomic_setPhaseVolume : cpp.

Lemma atomic_setPhaseVolume_name name volume :
  atomic (setPhaseVolume_name name volume).
Proof. unfold setPhaseVolume_name. by_atomic. Qed.

Lemma atomic_call m : atomic (call m).
Proof.
  destruct m; simpl;
    eauto using atomic_setTemperature_units, atomic_setPressure_units,
      atomic_setSpeciesAmounts_val, atomic_setSpeciesAmounts,
      atomic_setSpeciesAmounts_indices, atomic_setSpeciesAmount_name,
      atomic_setSpeciesAmount_name_units, atomic_setElementPotentials,
      atomic_setSpeciesPotentials, atomic_setVolume,
      atomic_setPhaseVolume_name with cpp.
Qed.

(** The dimension check of [setSpeciesAmounts(const Vector&)]. *)
Lemma setSpeciesAmounts_eq v s :
  setSpeciesAmounts v s =
  if decide (length v = numSpecies (system s))
  then (Return tt, with_n v s)
  else (Throw (Raised "Cannot set the molar amounts of the species."
          "The dimension of the molar abundance vector is different than the number of species."), s).
Proof.
  unfold setSpeciesAmounts, bind, gets, Assert, modify. simpl.
  by destruct (decide _) as [?|?]; [rewrite bool_decide_eq_true_2|rewrite bool_decide_eq_false_2].
Qed.

(** C2: a mutator call that fails has written nothing: whenever any of the
    mutators throws, the state at the throw is the state before the call.
    In particular [setSpeciesAmounts(n)] with a vector whose length is not
    the number of species throws the dimension error and leaves the whole
    state, hence the amounts, T, P, y and z, as it was. *)
Theorem failed_mutation_leaves_state (s : ChemicalState) :
  (∀ m e s', call m s = (Throw e, s') → s' = s) ∧
  (∀ v, length v ≠ numSpecies (system s) →
     setSpeciesAmounts v s =
     (Throw (Raised "Cannot set the molar amounts of the species."
        "The dimension of the molar abundance vector is different than the number of species."), s)).
Proof.
  split.
  - intros m e s' Hcall. by eapply atomic_call.
  - intros v Hlen. rewrite setSpeciesAmounts_eq. by rewrite decide_False.
Qed.

End Mutators.

Lemma failed_mutation_leaves_state_witness :
  with_n [55.5; 1; 1; 2]%float Examples.s0 = Examples.s1 ∧
  setSpeciesAmounts [1; 2]%float Examples.s1 =
    (Throw (Raised "Cannot set the molar amounts of the species."
       "The dimension of the molar abundance vector is different than the number of species."),
     Examples.s1).
Proof.
  destruct (failed_mutation_leaves_state (H:=Examples.externals) Examples.s1)
    as [Hcall Hdim].
  split.
  - apply (Hcall (SetPhaseVolumeName "Solid" 1)
      (Raised "Cannot set the volume of the phase."
         "The given phase index is out of range.")).
    reflexivity.
  - apply Hdim. simpl. vm_compute. lia.
Defined.

(** ** Scaling *)

Lemma scaleSpeciesAmounts_eq scalar s :
  scaleSpeciesAmounts scalar s =
  if (0 <=? scalar)%float
  then (Return tt, with_n ((λ x, x * scalar)%float <$> n s) s)
  else (Throw (Raised "Cannot scale the molar amounts of the species."
          "The given scalar is negative."), s).
Proof.
  unfold scaleSpeciesAmounts. destruct (0 <=? scalar)%float; [|done].
  unfold bind at 1. simpl. unfold bind, gets.
  pose proof (for_each_scale_n scalar 0 (length (n s)) 0 s) as Hloop.
  simpl in Hloop. etrans; [apply Hloop; lia|]. by rewrite scale_rows_all.
Qed.

(** C6: [scaleSpeciesAmounts(s)] with [s >= 0] returns, and afterwards
    every amount is the old amount times [s] while the system, T, P, y and
    z are as before; with [s < 0] it throws and the state is unchanged. *)
Theorem scaleSpeciesAmounts_spec (scalar : float) (s : ChemicalState) :
  (nonneg scalar →
     ∃ s', scaleSpeciesAmounts scalar s = (Return tt, s') ∧
       n s' = (λ x, x * scalar)%float <$> n s ∧
       (∀ i, n s' !! i = (λ x, x * scalar)%float <$> n s !! i) ∧
       system s' = system s ∧ T s' = T s ∧ P s' = P s ∧ y s' = y s ∧ z s' = z s) ∧
  (is_negative scalar →
     ∃ e, scaleSpeciesAmounts scalar s = (Throw e, s)).
Proof.
  rewrite scaleSpeciesAmounts_eq. split.
  - intros ->. eexists. split; [done|]. simpl. split_and!; try done.
    intros i. apply list_lookup_fmap.
  - intros ->%negative_not_nonneg. by eexists.
Qed.

Lemma scaleSpeciesAmounts_spec_witness :
  (∃ s', scaleSpeciesAmounts 2 Examples.s1 = (Return tt, s') ∧
     n s' = [111; 2; 2; 4]%float) ∧
  (∃ e, scaleSpeciesAmounts (-2) Examples.s1 = (Throw e, Examples.s1)).
Proof.
  destruct (scaleSpeciesAmounts_spec 2 Examples.s1) as [Hpos _].
  destruct (scaleSpeciesAmounts_spec (-2) Examples.s1) as [_ Hneg].
  split.
  - destruct Hpos as (s' & Hrun & Hn & _); [reflexivity|].
    exists s'. split; [exact Hrun|]. rewrite Hn. reflexivity.
  - apply Hneg. reflexivity.
Defined.

(** ** Sum of two states *)

Lemma sized_new sys : sized (ChemicalState_new sys).
Proof. unfold sized, ChemicalState_new, zeros. simpl. apply length_replicate. Qed.

(** The value [l + r] of two states of one system. *)
Lemma operator_plus_eq (l r : ChemicalState) :
  system l = system r → sized l → sized r →
  operator_plus l r = Return (with_n (zip_with PrimFloat.add (n l) (n r)) l).
Proof.
  unfold sized. intros Hsys Hl Hr.
  assert (length (n l) = length (n r)) as Hlen by congruence.
  unfold operator_plus, vadd. rewrite decide_True by done.
  rewrite setSpeciesAmounts_eq.
  by rewrite decide_True by (rewrite length_zip_with; lia).
Qed.

(** On objects [operator+] computes the value [l + r] into a new object. *)
Lemma operator_plus_objects_eq (h : list ChemicalState) (l r : nat)
    (impl_l impl_r : ChemicalState) :
  h !! l = Some impl_l → h !! r = Some impl_r →
  system impl_l = system impl_r → sized impl_l → sized impl_r →
  operator_plus_objects l r h =
  Some (Return (length h),
        h ++ [with_n (zip_with PrimFloat.add (n impl_l) (n impl_r)) impl_l]).
Proof.
  unfold sized. intros Hl Hr Hsys Hsl Hsr.
  assert (length (n impl_l) = length (n impl_r)) as Hlen by congruence.
  unfold operator_plus_objects, copy_construct, member, vadd.
  rewrite Hl, Hr, decide_True by done.
  rewrite lookup_app_r, Nat.sub_diag by done. simpl.
  rewrite setSpeciesAmounts_eq.
  rewrite decide_True by (rewrite length_zip_with; lia).
  do 2 f_equal. rewrite insert_app_r_alt, Nat.sub_diag by done. done.
Qed.

(** C4: for two state objects of one chemical system, each with one
    amount per species, [l + r] returns a new object whose amounts are the
    entrywise sums of the operands' amounts and whose system, temperature,
    pressure, [y] and [z] are those of the left operand; the operands, and
    every other object, are as they were. *)
Theorem operator_plus_spec (h : list ChemicalState) (l r : nat)
    (impl_l impl_r : ChemicalState) :
  h !! l = Some impl_l → h !! r = Some impl_r →
  system impl_l = system impl_r → sized impl_l → sized impl_r →
  ∃ res h' impl_res,
    operator_plus_objects l r h = Some (Return res, h') ∧
    h' !! res = Some impl_res ∧
    operator_plus impl_l impl_r = Return impl_res ∧
    n impl_res = zip_with PrimFloat.add (n impl_l) (n impl_r) ∧
    (∀ i, i < numSpecies (system impl_l) →
       ∃ x x', n impl_l !! i = Some x ∧ n impl_r !! i = Some x' ∧
               n impl_res !! i = Some (x + x')%float) ∧
    T impl_res = T impl_l ∧ P impl_res = P impl_l ∧
    y impl_res = y impl_l ∧ z impl_res = z impl_l ∧
    system impl_res = system impl_l ∧
    h' !! l = Some impl_l ∧ h' !! r = Some impl_r ∧
    (∀ a, a < length h → h' !! a = h !! a).
Proof.
  intros Hl Hr Hsys Hsl Hsr.
  eexists _, _, _. split; [by apply operator_plus_objects_eq|].
  split; [by rewrite lookup_app_r, Nat.sub_diag|].
  split; [by apply operator_plus_eq|]. simpl.
  split_and!; try done.
  - intros i Hi. unfold sized in *. rewrite <-Hsys in Hsr.
    destruct (lookup_lt_is_Some_2 (n impl_l) i) as [x Hx]; [lia|].
    destruct (lookup_lt_is_Some_2 (n impl_r) i) as [x' Hx']; [lia|].
    exists x, x'. split_and!; try done.
    by rewrite lookup_zip_with, Hx, Hx'.
  - rewrite lookup_app_l; [done|]. by eapply lookup_lt_Some.
  - rewrite lookup_app_l; [done|]. by eapply lookup_lt_Some.
  - intros a Ha. by rewrite lookup_app_l.
Qed.

Lemma operator_plus_spec_witness :
  ∃ res h' impl_res,
    operator_plus_objects 1 1 [Examples.s0; Examples.s1] = Some (Return res, h') ∧
    h' !! res = Some impl_res ∧
    n impl_res = [111; 2; 2; 4]%float ∧ T impl_res = T Examples.s1 ∧
    h' !! 1 = Some Examples.s1.
Proof.
  destruct (operator_plus_spec [Examples.s0; Examples.s1] 1 1
              Examples.s1 Examples.s1)
    as (res & h' & impl_res & Hrun & Hres & _ & Hn & _ & HT & _ & _ & _ & _ & Hl & _);
    [reflexivity..|].
  exists res, h', impl_res.
  split_and!; [exact Hrun|exact Hres|rewrite Hn; reflexivity|exact HT|exact Hl].
Defined.

(** ** Partition *)

Lemma elem_of_range (i last : nat) : i ∈ Partition.range last ↔ i < last.
Proof. unfold Partition.range. rewrite elem_of_seq. lia. Qed.

Lemma elem_of_unify (i : nat) (values1 values2 : list nat) :
  i ∈ Partition.unify values1 values2 ↔ i ∈ values1 ∨ i ∈ values2.
Proof. unfold Partition.unify. by rewrite elem_of_remove_dups, elem_of_app. Qed.

Lemma elem_of_difference (i : nat) (values1 values2 : list nat) :
  i ∈ Partition.difference values1 values2 ↔ i ∈ values1 ∧ i ∉ values2.
Proof. apply list_elem_of_difference. Qed.

(** C5: for index collections [K] and [I] with entries below the number
    of species [N], [allEquilibriumExcept(system, K, I)] passes [K] and [I]
    through as the kinetic and the inert indices, its equilibrium indices
    are exactly the indices below [N] that are neither in [K] nor in [I],
    so they share nothing with [K] or [I], and the three together are
    exactly the indices [0 .. N-1].  Disjointness of [K] and [I] is not
    needed for any of this. *)
Theorem allEquilibriumExcept_spec (sys : ChemicalSystem) (K I : list nat) :
  (∀ i, i ∈ K → i < numSpecies sys) →
  (∀ i, i ∈ I → i < numSpecies sys) →
  let p := Partition.allEquilibriumExcept sys K I in
  Partition.kineticSpeciesIndices p = K ∧
  Partition.inertSpeciesIndices p = I ∧
  (∀ i, i ∈ Partition.equilibriumSpeciesIndices p ↔
        i < numSpecies sys ∧ (i ∉ K) ∧ (i ∉ I)) ∧
  (∀ i, i ∈ Partition.equilibriumSpeciesIndices p → (i ∉ K) ∧ (i ∉ I)) ∧
  (∀ i, i < numSpecies sys ↔
        i ∈ Partition.equilibriumSpeciesIndices p ∨ i ∈ K ∨ i ∈ I).
Proof.
  intros HK HI p.
  assert (∀ i, i ∈ Partition.equilibriumSpeciesIndices p ↔
               i < numSpecies sys ∧ (i ∉ K) ∧ (i ∉ I)) as Heq.
  { intros i. unfold p, Partition.allEquilibriumExcept. simpl.
    rewrite elem_of_difference, elem_of_range, elem_of_unify.
    unfold numSpecies. tauto. }
  split_and!; try done.
  - intros i Hi. apply Heq in Hi. tauto.
  - intros i. rewrite Heq. split.
    + intros Hi. destruct (decide (i ∈ K)); [tauto|].
      destruct (decide (i ∈ I)); tauto.
    + intros [Hi|[Hi|Hi]]; [tauto|auto..].
Qed.

Lemma allEquilibriumExcept_spec_witness :
  let p := Partition.allEquilibriumExcept Examples.sys [1] [3] in
  Partition.equilibriumSpeciesIndices p = [0; 2] ∧
  Partition.kineticSpeciesIndices p = [1] ∧
  (∀ i, i < 4 ↔ i ∈ Partition.equilibriumSpeciesIndices p ∨ i ∈ [1] ∨ i ∈ [3]).
Proof.
  destruct (allEquilibriumExcept_spec Examples.sys [1] [3])
    as (HK & _ & _ & _ & Hall).
  - intros i ->%list_elem_of_singleton. vm_compute. lia.
  - intros i ->%list_elem_of_singleton. vm_compute. lia.
  - split; [reflexivity|]. split; [exact HK|]. exact Hall.
Defined.

(** ** [extract] *)

Lemma append_nil (rest : string) : EmptyString +:+ rest = rest.
Proof. done. Qed.

Lemma append_cons (c : Ascii.ascii) (word rest : string) :
  String c word +:+ rest = String c (word +:+ rest).
Proof. done. Qed.

Lemma append_String_assoc (word : string) (c : Ascii.ascii) (rest : string) :
  (word +:+ String c EmptyString) +:+ rest = word +:+ String c rest.
Proof.
  induction word as [|d word IH]; rewrite ?append_nil, ?append_cons; [done|].
  by rewrite IH.
Qed.

Lemma append_empty_r (word : string) : word +:+ EmptyString = word.
Proof.
  induction word as [|d word IH]; rewrite ?append_nil, ?append_cons; [done|].
  by rewrite IH.
Qed.

(** [split] runs over a stretch without delimiters and collects it. *)
Lemma split_from_none_of delims str : ∀ word rest,
  none_of delims str = true →
  split_from delims word (str +:+ rest) = split_from delims (word +:+ str) rest.
Proof.
  induction str as [|c str IH]; intros word rest Hnone.
  - by rewrite append_nil, append_empty_r.
  - simpl in Hnone. apply andb_true_iff in Hnone as [Hc Hnone].
    apply negb_true_iff in Hc. rewrite append_cons. simpl.
    rewrite Hc, IH by done. by rewrite append_String_assoc.
Qed.

Lemma none_of_weaken delims delims' str :
  (∀ c, is_any_of c delims' = true → is_any_of c delims = true) →
  none_of delims str = true → none_of delims' str = true.
Proof.
  intros Hsub. induction str as [|c str IH]; simpl; [done|].
  intros [Hc Hnone]%andb_true_iff. rewrite IH by done.
  apply negb_true_iff in Hc. specialize (Hsub c).
  destruct (is_any_of c delims'); [|done]. by rewrite Hsub in Hc.
Qed.

Lemma split_query_colon name :
  plain_name name →
  split ("a[" +:+ name +:+ "]") ":" = ["a[" +:+ name +:+ "]"].
Proof.
  intros [Hne Hplain]. unfold split. rewrite !append_cons, append_nil. simpl.
  rewrite split_from_none_of.
  - simpl. by repeat first [rewrite append_nil | rewrite append_cons].
  - revert Hplain. apply none_of_weaken. intros c. simpl.
    by destruct (Ascii.eqb c ":").
Qed.

Lemma split_query_brackets name :
  plain_name name →
  split ("a[" +:+ name +:+ "]") "[]" = ["a"; name].
Proof.
  intros [Hne Hplain]. unfold split. rewrite !append_cons, append_nil. simpl.
  rewrite split_from_none_of.
  - simpl. rewrite append_nil. by destruct name.
  - revert Hplain. apply none_of_weaken. intros c. simpl.
    by destruct (Ascii.eqb c ":").
Qed.

Section Extract.
Context `{Externals}.

Lemma numSpecies_names sys : length (species_name <$> species sys) = numSpecies sys.
Proof. apply length_fmap. Qed.

(** C7: when the system has a species named "H+", [extract(state, "pH")]
    returns [-log10] of the entry for the first such species in the
    activities evaluated at the state's own T, P and n. *)
Theorem extract_pH (s : ChemicalState) :
  "H+" ∈ species_name <$> species (system s) →
  activities_sized s →
  ∃ iH aH,
    (species_name <$> species (system s)) !! iH = Some "H+" ∧
    activities (system s) (T s) (P s) (n s) !! iH = Some aH ∧
    extract "pH" s = (Return (- log10 aH)%float, s).
Proof.
  intros Hin Hsized.
  destruct (index_elem_of _ _ Hin) as [Hlt Hname].
  rewrite numSpecies_names in Hlt.
  destruct (lookup_lt_is_Some_2
    (activities (system s) (T s) (P s) (n s)) (indexSpecies (system s) "H+"))
    as [aH HaH]; [by rewrite Hsized|].
  exists (indexSpecies (system s) "H+"), aH. split_and!; try done.
  unfold extract, at_, bind, gets, temperature, pressure, speciesAmounts. simpl.
  by rewrite HaH.
Qed.

(** C10: an activity query for a name that is no species of the system,
    and a pH query on a system without a species named "H+", do not throw:
    [indexSpecies] hands back the number of species and the unchecked
    access to the activities is out of range. *)
Theorem extract_activity_unchecked (s : ChemicalState) :
  activities_sized s →
  ("H+" ∉ species_name <$> species (system s) →
     extract "pH" s = (Undefined, s)) ∧
  (∀ name, plain_name name → name ∉ species_name <$> species (system s) →
     extract ("a[" +:+ name +:+ "]") s = (Undefined, s)).
Proof.
  intros Hsized. split.
  - intros Hnot. apply index_not_elem_of in Hnot.
    rewrite numSpecies_names in Hnot.
    unfold extract, at_, bind, gets, temperature, pressure, speciesAmounts. simpl.
    unfold indexSpecies. rewrite Hnot, lookup_ge_None_2; [done|].
    by rewrite Hsized.
  - intros name Hplain Hnot. apply index_not_elem_of in Hnot.
    rewrite numSpecies_names in Hnot.
    unfold extract. rewrite split_query_colon by done.
    unfold bind, gets, temperature, pressure, speciesAmounts. simpl.
    rewrite split_query_brackets by done. simpl.
    unfold at_, indexSpecies. rewrite Hnot, lookup_ge_None_2; [done|].
    by rewrite Hsized.
Qed.

End Extract.

Lemma extract_pH_witness :
  extract (H:=Examples.externals) "pH" Examples.s1 = (Return (-1)%float, Examples.s1).
Proof.
  destruct (extract_pH (H:=Examples.externals) Examples.s1) as (iH & aH & Hname & Ha & Hrun).
  - apply list_elem_of_In. simpl. tauto.
  - reflexivity.
  - assert (iH = 1) as -> by by destruct iH as [|[|[|[|[|]]]]].
    injection Ha as <-. exact Hrun.
Defined.

Lemma extract_activity_unchecked_witness :
  extract (H:=Examples.externals) "pH" (ChemicalState_new
    {| phases := [Examples.gaseous]; element_names := ["C"; "O"];
       phaseVolumes _ _ v := v; activities _ _ v := v;
       system_elementAmount _ _ := 0%float;
       system_elementAmountInPhase _ _ _ := 0%float |}) =
    (Undefined, ChemicalState_new
    {| phases := [Examples.gaseous]; element_names := ["C"; "O"];
       phaseVolumes _ _ v := v; activities _ _ v := v;
       system_elementAmount _ _ := 0%float;
       system_elementAmountInPhase _ _ _ := 0%float |}) ∧
  extract (H:=Examples.externals) "a[Na+]" Examples.s1 = (Undefined, Examples.s1) ∧
  extract (H:=Examples.externals) "n[Na+]" Examples.s1 =
    (Throw (UnknownSpecies "Na+"), Examples.s1).
Proof.
  split; [|split; [|reflexivity]].
  - refine (proj1 (extract_activity_unchecked (H:=Examples.externals) _ _) _);
      [reflexivity|].
    intros Hin%list_elem_of_In. simpl in Hin. intuition discriminate.
  - refine (proj2 (extract_activity_unchecked (H:=Examples.externals)
      Examples.s1 _) "Na+" _ _).
    + reflexivity.
    + split; [discriminate|reflexivity].
    + intros Hin%list_elem_of_In. simpl in Hin. intuition discriminate.
Defined.

(** ** [extract] on the same state

    Where [extract] stays within defined behaviour it ends with a value
    or an error; the expressions on which it does not are those of
    [extract_unchecked]. *)

Lemma split_from_word delims str : ∀ word,
  word ≠ EmptyString → split_from delims word str ≠ [].
Proof.
  induction str as [|c str IH]; intros word Hword; simpl.
  - by destruct word.
  - destruct (is_any_of c delims); [by destruct word|].
    apply IH. by destruct word.
Qed.

Lemma split_first_char quantity c delims :
  Ascii.eqb (first_char quantity) c = true → is_any_of c delims = false →
  c ≠ Ascii.zero →
  ∃ name, last (split quantity delims) = Some name.
Proof.
  intros Hc%Ascii.eqb_eq Hdelims Hzero.
  destruct quantity as [|c' rest]; simpl in Hc; [done|]. subst c'.
  unfold split. simpl. rewrite Hdelims.
  destruct (split_from delims (EmptyString +:+ String c EmptyString) rest)
    as [|w ws] eqn:Hsplit.
  - by apply split_from_word in Hsplit.
  - apply (last_is_Some (w :: ws)). done.
Qed.

Section Determined.
Context `{Externals}.

Lemma defined_speciesAmount_name name s :
  sized s → (speciesAmount_name name s).1 ≠ Undefined.
Proof.
  unfold sized. intros Hsized.
  unfold speciesAmount_name, indexSpeciesWithError, speciesAmount, read_n,
    Assert, bind, gets, get, ret, raise, undefined.
  simpl. case_decide as Hi; [|done]. simpl.
  rewrite bool_decide_eq_true_2 by done. simpl.
  destruct (n s !! indexSpecies (system s) name) eqn:Hrow; [done|].
  apply lookup_ge_None in Hrow. lia.
Qed.

Lemma defined_convert x from to s : (convert x from to s).1 ≠ Undefined.
Proof. unfold convert. by case_match. Qed.

Lemma defined_speciesAmount_name_units name units s :
  sized s → (speciesAmount_name_units name units s).1 ≠ Undefined.
Proof.
  intros Hsized. unfold speciesAmount_name_units, bind.
  pose proof (defined_speciesAmount_name name s Hsized) as Hname.
  destruct (speciesAmount_name name s) as [[mol| |] s']; [|done..].
  apply defined_convert.
Qed.

Lemma defined_elementAmount_name_units name units s :
  (elementAmount_name_units name units s).1 ≠ Undefined.
Proof.
  unfold elementAmount_name_units, elementAmount_name, elementAmount,
    indexElementWithError, speciesAmounts, bind, gets, ret, raise.
  simpl. case_decide; [|done]. apply defined_convert.
Qed.

Lemma defined_elementAmountInPhase_name_units element phase units s :
  (elementAmountInPhase_name_units element phase units s).1 ≠ Undefined.
Proof.
  unfold elementAmountInPhase_name_units, elementAmountInPhase_name,
    elementAmountInPhase, indexElementWithError, indexPhaseWithError,
    speciesAmounts, bind, gets, ret, raise.
  simpl. case_decide; [|done]. simpl. case_decide; [|done].
  apply defined_convert.
Qed.

Lemma extract_undefined_iff str s :
  sized s → (extract str s).1 = Undefined ↔ extract_unchecked str s.
Proof.
  intros Hsized. unfold extract_unchecked, extract.
  destruct (split str ":") as [|quantity words] eqn:Hwords; [done|].
  assert (∃ units,
    (if decide (1 < length (quantity :: words))
     then word_at (quantity :: words) 1 else ret EmptyString) s
    = (Return units, s)) as [units Hunits].
  { destruct words; simpl; eauto. }
  rewrite (bind_Return _ _ s quantity s) by done.
  rewrite (bind_Return _ _ s units s) by exact Hunits.
  unfold bind at 1 2 3 4, temperature, pressure, speciesAmounts, gets.
  cbn beta iota.
  destruct (Ascii.eqb (first_char quantity) "n") eqn:Hn.
  { destruct (split_first_char quantity "n" "[]" Hn eq_refl) as [name Hname];
      [done|].
    unfold back. rewrite Hname. rewrite (bind_Return _ _ s name s) by done.
    apply Ascii.eqb_eq in Hn. rewrite Hn. simpl. split.
    - intros Hu. by apply defined_speciesAmount_name_units in Hu.
    - intros [-> _]. done. }
  destruct (Ascii.eqb (first_char quantity) "b") eqn:Hb.
  { destruct (split quantity "[]") as [|kind [|element names]] eqn:Hnames;
      [simpl; split; [lia|done]..|].
    rewrite (bind_Return _ _ s element s) by done.
    assert (∃ phase,
      (if decide (2 < length (kind :: element :: names))
       then word_at (kind :: element :: names) 2 else ret EmptyString) s
      = (Return phase, s)) as [phase Hphase].
    { destruct names; simpl; eauto. }
    rewrite (bind_Return _ _ s phase s) by exact Hphase.
    simpl. split; [|lia]. intros Hu.
    destruct (is_empty phase).
    - by apply defined_elementAmount_name_units in Hu.
    - by apply defined_elementAmountInPhase_name_units in Hu. }
  destruct (Ascii.eqb (first_char quantity) "m") eqn:Hm.
  { destruct (split_first_char quantity "m" "[]" Hm eq_refl) as [name Hname];
      [done|].
    unfold back. rewrite Hname. rewrite (bind_Return _ _ s name s) by done.
    apply Ascii.eqb_eq in Hm. rewrite Hm. simpl. split; [|by intros [-> _]].
    unfold bind.
    pose proof (defined_speciesAmount_name "H2O(l)" s Hsized) as HH2O.
    pose proof (reads_speciesAmount_name "H2O(l)" s) as Hs.
    destruct (speciesAmount_name "H2O(l)" s) as [[nH2O| |] s']; [|done..].
    simpl in Hs. subst s'.
    pose proof (defined_speciesAmount_name name s Hsized) as Hni.
    destruct (speciesAmount_name name s) as [[ni| |] s']; [|done..].
    intros Hu. by apply defined_convert in Hu. }
  destruct (Ascii.eqb (first_char quantity) "a") eqn:Ha.
  { destruct (split_first_char quantity "a" "[]" Ha eq_refl) as [name Hname];
      [done|].
    unfold back. rewrite Hname. rewrite (bind_Return _ _ s name s) by done.
    unfold at_.
    destruct (activities _ _ _ _ !! indexSpecies (system s) name) eqn:Hrow; simpl.
    - split; [done|]. intros (name' & [= <-] & Hlen).
      apply lookup_lt_Some in Hrow. lia.
    - split; [|done]. intros _. exists name. split; [done|].
      by apply lookup_ge_None in Hrow. }
  destruct (String.eqb quantity "pH") eqn:HpH.
  { apply String.eqb_eq in HpH. unfold at_, bind.
    destruct (activities _ _ _ _ !! indexSpecies (system s) "H+") eqn:Hrow; simpl.
    - split; [done|]. intros [_ Hlen]. apply lookup_lt_Some in Hrow. lia.
    - split; [|done]. intros _. split; [done|]. by apply lookup_ge_None in Hrow. }
  simpl. split; [done|]. intros [HpH' _]. apply String.eqb_neq in HpH. done.
Qed.


End Determined.



(** ** Setting one amount, with units *)

Lemma setSpeciesAmount_eq index amount s :
  sized s →
  setSpeciesAmount index amount s =
  if (0 <=? amount)%float then
    if decide (index < numSpecies (system s))
    then (Return tt, with_n (<[index:=amount]> (n s)) s)
    else (Throw (Raised "Cannot set the molar amount of the species."
            "The given index is out-of-range."), s)
  else (Throw (Raised "Cannot set the molar amount of the species."
          "The given molar amount is negative."), s).
Proof.
  unfold sized, numSpecies. intros Hsized.
  unfold setSpeciesAmount, bind, gets, Assert. simpl.
  destruct (0 <=? amount)%float; simpl; [|done].
  destruct (decide _) as [Hi|Hi].
  - rewrite bool_decide_eq_true_2 by done. simpl.
    apply write_n_lt. by rewrite Hsized.
  - by rewrite bool_decide_eq_false_2.
Qed.

Section Units.
Context `{Externals}.

(** C8, amended: for a valid species index the unit overload stores the
    amount converted to mol when the units convert to mol, and otherwise
    the amount converted to kg divided by the molar mass of the species
    when the units convert to kg -- each provided the value to store is
    [>= 0]; a value that is not (negative, or NaN) is refused with the
    negative-amount error.  With units of neither kind the call raises the
    units error.  Every refusal leaves the state as it was. *)
Theorem setSpeciesAmount_units_spec
    (index : nat) (amount : float) (units : string) (s : ChemicalState) :
  sized s → index < numSpecies (system s) →
  ∃ sp, species (system s) !! index = Some sp ∧
    let store (a : float) : Result unit * ChemicalState :=
      if (0 <=? a)%float
      then (Return tt, with_n (<[index:=a]> (n s)) s)
      else (Throw (Raised "Cannot set the molar amount of the species."
              "The given molar amount is negative."), s) in
    setSpeciesAmount_units index amount units s =
    if units_convertible units "mol" then
      store (units_convert amount units "mol")
    else if units_convertible units "kg" then
      store (units_convert amount units "kg" / molarMass sp)%float
    else
      (Throw (Raised "Cannot set the amount of the species."
         ("The provided units `" +:+ units +:+
          "` is not convertible to units of amount or mass (e.g., mol and kg).")), s).
Proof.
  intros Hsized Hindex.
  destruct (lookup_lt_is_Some_2 (species (system s)) index) as [sp Hsp]; [done|].
  exists sp. split; [done|]. simpl.
  unfold setSpeciesAmount_units, convert.
  destruct (units_convertible units "mol") eqn:Hmol.
  - unfold bind at 1, ret. rewrite setSpeciesAmount_eq by done.
    by rewrite decide_True.
  - destruct (units_convertible units "kg") eqn:Hkg; [|done].
    unfold system_species, bind, gets, ret. simpl. rewrite Hsp.
    rewrite setSpeciesAmount_eq by done. by rewrite decide_True.
Qed.

End Units.

Lemma setSpeciesAmount_units_spec_witness :
  setSpeciesAmount_units (H:=Examples.externals) 1 1000 "mmol" Examples.s1 =
    (Return tt, with_n [55.5; 1; 1; 2]%float Examples.s1) ∧
  setSpeciesAmount_units (H:=Examples.externals) 0 18.015268 "g" Examples.s1 =
    (Return tt, with_n [1; 1; 1; 2]%float Examples.s1) ∧
  setSpeciesAmount_units (H:=Examples.externals) 0 1 "kelvin" Examples.s1 =
    (Throw (Raised "Cannot set the amount of the species."
       "The provided units `kelvin` is not convertible to units of amount or mass (e.g., mol and kg)."),
     Examples.s1).
Proof.
  split_and!.
  - destruct (setSpeciesAmount_units_spec (H:=Examples.externals)
      1 1000 "mmol" Examples.s1) as (sp & _ & ->); [reflexivity|vm_compute; lia|].
    reflexivity.
  - destruct (setSpeciesAmount_units_spec (H:=Examples.externals)
      0 18.015268 "g" Examples.s1) as (sp & Hsp & ->); [reflexivity|vm_compute; lia|].
    injection Hsp as <-. reflexivity.
  - destruct (setSpeciesAmount_units_spec (H:=Examples.externals)
      0 1 "kelvin" Examples.s1) as (sp & _ & ->); [reflexivity|vm_compute; lia|].
    reflexivity.
Defined.

(** C8 as stated fails on a negative amount: [-1 mol] for a valid index
    and units that convert to mol is refused, not stored. *)
Lemma setSpeciesAmount_units_refuses_negative :
  1 < numSpecies (system Examples.s1) ∧
  units_convertible (Externals:=Examples.externals) "mol" "mol" = true ∧
  units_convert (Externals:=Examples.externals) (-1) "mol" "mol" = (-1)%float ∧
  setSpeciesAmount_units (H:=Examples.externals) 1 (-1) "mol" Examples.s1 =
    (Throw (Raised "Cannot set the molar amount of the species."
       "The given molar amount is negative."), Examples.s1) ∧
  setSpeciesAmount_units (H:=Examples.externals) 1 (-1) "mol" Examples.s1 ≠
    (Return tt, with_n (<[1:=(-1)%float]> (n Examples.s1)) Examples.s1).
Proof. split_and!; [vm_compute; lia|reflexivity..|discriminate]. Qed.

(** ** The invariant of the state *)

Lemma invariant_with_n v s : invariant s → Forall nonneg v → invariant (with_n v s).
Proof. intros (HT & HP & _) Hv. unfold invariant. by split_and!. Qed.

Lemma scale_n_None scalar i s : n s !! i = None → scale_n scalar i s = (Undefined, s).
Proof. intros Hi. unfold scale_n, read_n, bind, get, undefined. simpl. by rewrite Hi. Qed.

(** A scaling loop that returns has scaled exactly its rows. *)
Lemma for_each_scale_n_Return scalar start size : ∀ k s s',
  for_each (seq k size) (λ i, scale_n scalar (start + i)) s = (Return tt, s') →
  s' = with_n (scale_rows scalar (start + k) size (n s)) s.
Proof.
  induction size as [|size IH]; intros k s s'; simpl.
  - intros [= <-]. by rewrite scale_rows_0, with_n_id.
  - destruct (n s !! (start + k)) as [x|] eqn:Hx.
    + erewrite bind_Return by by apply scale_n_lt.
      intros Hrun%IH. simpl in Hrun. rewrite with_n_with_n in Hrun.
      rewrite Hrun. f_equal.
      replace (start + S k) with (S (start + k)) by lia.
      by apply scale_rows_S.
    + erewrite bind_Undefined by by apply scale_n_None. done.
Qed.

Lemma Forall_scale_rows scalar start size v :
  nonneg scalar → Forall nonneg v →
  Forall not_nan (scale_rows scalar start size v) →
  Forall nonneg (scale_rows scalar start size v).
Proof.
  intros Hscalar Hv Hnan. apply Forall_lookup_2. intros i x' Hi.
  pose proof (Forall_lookup_1 _ _ _ _ Hnan Hi) as Hx'.
  rewrite lookup_scale_rows in Hi.
  destruct (v !! i) as [x|] eqn:Hx; simplify_eq/=.
  pose proof (Forall_lookup_1 _ _ _ _ Hv Hx).
  case_decide; [by apply nonneg_mul|done].
Qed.

(** The rows written by [rows(n, indices) = v] are entries of [v]. *)
Lemma assign_rows_Return (Q : float → Prop) indices : ∀ v s s',
  assign_rows indices v s = (Return tt, s') →
  Forall Q (n s) → Forall Q v →
  ∃ w, s' = with_n w s ∧ Forall Q w.
Proof.
  induction indices as [|i indices IH]; intros v s s'; simpl.
  - intros [= <-] Hn _. exists (n s). by rewrite with_n_id.
  - destruct v as [|x v].
    { intros [= <-] Hn _. exists (n s). by rewrite with_n_id. }
    intros Hrun Hn [Hx Hv]%Forall_cons.
    destruct (decide (i < length (n s))) as [Hi|Hi].
    + erewrite bind_Return in Hrun by by apply write_n_lt.
      apply IH in Hrun as (w & -> & Hw); [|by apply Forall_insert|done].
      exists w. by rewrite with_n_with_n.
    + erewrite bind_Undefined in Hrun by (apply write_n_ge; lia). done.
Qed.

Lemma Forall_zip_with_add v w :
  Forall nonneg v → Forall nonneg w → Forall nonneg (zip_with PrimFloat.add v w).
Proof.
  intros Hv. revert w. induction Hv as [|x v Hx Hv IH]; intros [|x' w] Hw; simpl;
    try by constructor.
  apply Forall_cons in Hw as [Hx' Hw]. constructor; [by apply nonneg_add|auto].
Qed.

(** Unfolds a run that returned down to the writes it made. *)
Ltac returned Hrun :=
  unfold Assert, convert, temperature, pressure, speciesAmounts,
    indexSpeciesWithError, system_species, errorNonAmountOrMassUnits, at_,
    bind, ret, gets, get, put, modify, raise, undefined in Hrun;
  simpl in Hrun;
  repeat (case_match; simplify_eq/=); simplify_eq/=.

Section Invariant.
Context `{Externals}.

Lemma nonneg_setSpeciesAmount index amount s s' :
  Forall nonneg (n s) → setSpeciesAmount index amount s = (Return tt, s') →
  Forall nonneg (n s').
Proof.
  intros Hs Hrun. unfold setSpeciesAmount, write_n in Hrun. returned Hrun.
  by apply Forall_insert.
Qed.

Lemma nonneg_setSpeciesAmount_units index amount units s s' :
  Forall nonneg (n s) →
  setSpeciesAmount_units index amount units s = (Return tt, s') →
  Forall nonneg (n s').
Proof.
  intros Hs Hrun. unfold setSpeciesAmount_units in Hrun.
  repeat case_match; returned Hrun; try done;
    eauto using nonneg_setSpeciesAmount.
Qed.

Lemma nonneg_scaleSpeciesAmounts scalar s s' :
  Forall nonneg (n s) → scaleSpeciesAmounts scalar s = (Return tt, s') →
  Forall not_nan (n s') → Forall nonneg (n s').
Proof.
  intros Hs. rewrite scaleSpeciesAmounts_eq, <-scale_rows_all.
  destruct (0 <=? scalar)%float eqn:Hscalar; [|done].
  intros [= <-] Hnan. by apply Forall_scale_rows.
Qed.

Lemma nonneg_scaleSpeciesAmountsInPhase index scalar s s' :
  Forall nonneg (n s) →
  scaleSpeciesAmountsInPhase index scalar s = (Return tt, s') →
  Forall not_nan (n s') → Forall nonneg (n s').
Proof.
  intros Hs Hrun. unfold scaleSpeciesAmountsInPhase in Hrun.
  unfold bind at 1 2 3, gets, Assert in Hrun. simpl in Hrun.
  destruct (0 <=? scalar)%float eqn:Hscalar; [|done]. simpl in Hrun.
  case_bool_decide; [|done]. simpl in Hrun.
  apply for_each_scale_n_Return in Hrun as ->. simpl. intros Hnan.
  by apply Forall_scale_rows.
Qed.

Lemma nonneg_setVolume volume s s' :
  Forall nonneg (n s) → setVolume volume s = (Return tt, s') →
  Forall not_nan (n s') → Forall nonneg (n s').
Proof.
  intros Hs Hrun. unfold setVolume in Hrun.
  unfold bind at 1 2 3 4 5, gets, Assert, temperature, pressure, speciesAmounts in Hrun.
  simpl in Hrun. destruct (0 <=? volume)%float; [|done]. simpl in Hrun.
  eauto using nonneg_scaleSpeciesAmounts.
Qed.

Lemma nonneg_setPhaseVolume index volume s s' :
  Forall nonneg (n s) → setPhaseVolume index volume s = (Return tt, s') →
  Forall not_nan (n s') → Forall nonneg (n s').
Proof.
  intros Hs Hrun. unfold setPhaseVolume in Hrun.
  unfold bind at 1 2 3 4 5 6 7, gets, Assert, temperature, pressure, speciesAmounts, at_
    in Hrun.
  simpl in Hrun. destruct (0 <=? volume)%float; [|done]. simpl in Hrun.
  case_bool_decide; [|done]. simpl in Hrun.
  destruct (phaseVolumes _ _ _ _ !! index); [|done]. simpl in Hrun.
  eauto using nonneg_scaleSpeciesAmountsInPhase.
Qed.

End Invariant.

(** ** What a call writes *)

Section Writes.
Context `{Externals}.

Lemma with_n_setSpeciesAmount index amount s s' :
  setSpeciesAmount index amount s = (Return tt, s') → ∃ w, s' = with_n w s.
Proof.
  intros Hrun. unfold setSpeciesAmount, write_n in Hrun. returned Hrun. eauto.
Qed.

Lemma with_n_setSpeciesAmount_units index amount units s s' :
  setSpeciesAmount_units index amount units s = (Return tt, s') →
  ∃ w, s' = with_n w s.
Proof.
  intros Hrun. unfold setSpeciesAmount_units in Hrun.
  repeat case_match; returned Hrun; try done; eauto using with_n_setSpeciesAmount.
Qed.

Lemma with_n_scaleSpeciesAmounts scalar s s' :
  scaleSpeciesAmounts scalar s = (Return tt, s') → ∃ w, s' = with_n w s.
Proof.
  rewrite scaleSpeciesAmounts_eq. case_match; [|done]. intros [= <-]. eauto.
Qed.

Lemma with_n_scaleSpeciesAmountsInPhase index scalar s s' :
  scaleSpeciesAmountsInPhase index scalar s = (Return tt, s') →
  ∃ w, s' = with_n w s.
Proof.
  intros Hrun. unfold scaleSpeciesAmountsInPhase in Hrun.
  unfold bind at 1 2 3, gets, Assert in Hrun. simpl in Hrun.
  destruct (0 <=? scalar)%float; [|done]. simpl in Hrun.
  case_bool_decide; [|done]. simpl in Hrun.
  apply for_each_scale_n_Return in Hrun as ->. eauto.
Qed.

(** A call that returns has written one field: the amounts, or a
    temperature or pressure that passed the check, or one of the two
    potentials. *)
Lemma call_effect m s s' :
  call m s = (Return tt, s') →
  (∃ w, s' = with_n w s) ∨
  (∃ val, is_positive val ∧ s' = with_T val s) ∨
  (∃ val, is_positive val ∧ s' = with_P val s) ∨
  (∃ v, s' = with_y v s) ∨ (∃ v, s' = with_z v s).
Proof.
  intros Hrun. destruct m; simpl in *.
  - unfold setTemperature in Hrun. returned Hrun. eauto 10.
  - unfold setTemperature_units, setTemperature in Hrun. returned Hrun. eauto 10.
  - unfold setPressure in Hrun. returned Hrun. eauto 10.
  - unfold setPressure_units, setPressure in Hrun. returned Hrun. eauto 10.
  - unfold setSpeciesAmounts_val in Hrun. returned Hrun. eauto.
  - rewrite setSpeciesAmounts_eq in Hrun. case_decide; simplify_eq. eauto.
  - unfold setSpeciesAmounts_indices in Hrun.
    unfold bind at 1, Assert in Hrun. case_bool_decide; [|done]. simpl in Hrun.
    eapply (assign_rows_Return (λ _, True)) in Hrun as (w & -> & _); eauto.
    + by apply Forall_true.
    + by apply Forall_true.
  - left. by eapply with_n_setSpeciesAmount.
  - unfold setSpeciesAmount_name, indexSpeciesWithError in Hrun.
    unfold bind at 1 2, gets in Hrun. simpl in Hrun.
    case_decide; [|done]. simpl in Hrun. left. by eapply with_n_setSpeciesAmount.
  - left. by eapply with_n_setSpeciesAmount_units.
  - unfold setSpeciesAmount_name_units, indexSpeciesWithError in Hrun.
    unfold bind at 1 2, gets in Hrun. simpl in Hrun.
    case_decide; [|done]. simpl in Hrun.
    left. by eapply with_n_setSpeciesAmount_units.
  - unfold setElementPotentials in Hrun. returned Hrun. eauto 10.
  - unfold setSpeciesPotentials in Hrun. returned Hrun. eauto 10.
  - unfold setVolume in Hrun.
    unfold bind at 1 2 3 4 5, gets, Assert, temperature, pressure, speciesAmounts
      in Hrun.
    simpl in Hrun. destruct (0 <=? volume)%float; [|done]. simpl in Hrun.
    left. by eapply with_n_scaleSpeciesAmounts.
  - unfold setPhaseVolume in Hrun. returned Hrun;
      left; by eapply with_n_scaleSpeciesAmountsInPhase.
  - unfold setPhaseVolume_name, setPhaseVolume in Hrun. returned Hrun;
      left; by eapply with_n_scaleSpeciesAmountsInPhase.
  - left. by eapply with_n_scaleSpeciesAmounts.
  - left. by eapply with_n_scaleSpeciesAmountsInPhase.
Qed.

End Writes.

(** ** The invariant across calls *)

Section Invariant_of_calls.
Context `{Externals}.

(** A call that returns leaves amounts [>= 0] as they were, unless it was
    handed a vector with an entry that is not, or a scaling left NaN. *)
Lemma nonneg_call m s s' :
  Forall nonneg (n s) → call m s = (Return tt, s') →
  Forall nonneg (given_amounts m) →
  (scales m = true → Forall not_nan (n s')) →
  Forall nonneg (n s').
Proof.
  intros Hn Hrun Hgiven Hnan.
  destruct m; simpl in *.
  - unfold setTemperature in Hrun. by returned Hrun.
  - unfold setTemperature_units, setTemperature in Hrun. by returned Hrun.
  - unfold setPressure in Hrun. by returned Hrun.
  - unfold setPressure_units, setPressure in Hrun. by returned Hrun.
  - unfold setSpeciesAmounts_val in Hrun. returned Hrun.
    by apply Forall_replicate.
  - rewrite setSpeciesAmounts_eq in Hrun. by case_decide; simplify_eq.
  - unfold setSpeciesAmounts_indices in Hrun.
    unfold bind at 1, Assert in Hrun. case_bool_decide; [|done]. simpl in Hrun.
    by eapply assign_rows_Return in Hrun as (w & -> & Hw); [|done..].
  - by eapply nonneg_setSpeciesAmount.
  - unfold setSpeciesAmount_name, indexSpeciesWithError in Hrun.
    unfold bind at 1 2, gets in Hrun. simpl in Hrun.
    case_decide; [|done]. simpl in Hrun. by eapply nonneg_setSpeciesAmount.
  - by eapply nonneg_setSpeciesAmount_units.
  - unfold setSpeciesAmount_name_units, indexSpeciesWithError in Hrun.
    unfold bind at 1 2, gets in Hrun. simpl in Hrun.
    case_decide; [|done]. simpl in Hrun.
    by eapply nonneg_setSpeciesAmount_units.
  - unfold setElementPotentials in Hrun. by returned Hrun.
  - unfold setSpeciesPotentials in Hrun. by returned Hrun.
  - eapply nonneg_setVolume; eauto.
  - eapply nonneg_setPhaseVolume; eauto.
  - unfold setPhaseVolume_name in Hrun. unfold bind at 1, gets in Hrun.
    simpl in Hrun. eapply nonneg_setPhaseVolume; eauto.
  - eapply nonneg_scaleSpeciesAmounts; eauto.
  - eapply nonneg_scaleSpeciesAmountsInPhase; eauto.
Qed.

(** C1, amended: every mutator call that returns, whatever it was given,
    leaves [T > 0] if it was, and [P > 0] if it was; it leaves every
    amount [>= 0] if every amount was, provided that the vector handed to
    a vector overload of [setSpeciesAmounts] is itself [>= 0] in every
    entry (these overloads check dimensions only) and that no amount has
    become NaN under a scaling mutator ([setVolume], [setPhaseVolume],
    [scaleSpeciesAmounts], [scaleSpeciesAmountsInPhase]), which is what
    zero times infinity gives.  The sum of two states with [T > 0],
    [P > 0] and [n >= 0] is such a state.  A product by a scalar, in
    either order of the operands, keeps [T > 0] and [P > 0] and, when no
    amount has become NaN, [n >= 0]. *)
Theorem mutation_keeps_invariant :
  (∀ m s s',
     call m s = (Return tt, s') →
     (is_positive (T s) → is_positive (T s')) ∧
     (is_positive (P s) → is_positive (P s')) ∧
     (Forall nonneg (n s) →
      Forall nonneg (given_amounts m) →
      (scales m = true → Forall not_nan (n s')) →
      Forall nonneg (n s'))) ∧
  (∀ l r res,
     invariant l → invariant r → operator_plus l r = Return res →
     invariant res) ∧
  (∀ scalar state res,
     operator_times scalar state = Return res ∨
     operator_times_r state scalar = Return res →
     (is_positive (T state) → is_positive (T res)) ∧
     (is_positive (P state) → is_positive (P res)) ∧
     (Forall nonneg (n state) → Forall not_nan (n res) → Forall nonneg (n res))).
Proof.
  split_and!.
  - intros m s s' Hrun. split_and!; [..|intros; by eapply nonneg_call].
    + destruct (call_effect _ _ _ Hrun)
        as [[w ->]|[(val & Hval & ->)|[(val & Hval & ->)|[[v ->]|[v ->]]]]];
        by destruct s.
    + destruct (call_effect _ _ _ Hrun)
        as [[w ->]|[(val & Hval & ->)|[(val & Hval & ->)|[[v ->]|[v ->]]]]];
        by destruct s.
  - intros l r res Hl Hr. unfold operator_plus, vadd.
    case_decide; [|done]. rewrite setSpeciesAmounts_eq.
    case_decide; [|done]. intros [= <-].
    apply invariant_with_n; [done|]. apply Forall_zip_with_add; [apply Hl|apply Hr].
  - intros scalar state res Hres.
    assert (operator_times scalar state = Return res) as Htimes by by destruct Hres.
    unfold operator_times in Htimes.
    destruct (scaleSpeciesAmounts scalar state) as [[[]| |] s'] eqn:Hrun; try done.
    injection Htimes as <-.
    destruct (with_n_scaleSpeciesAmounts _ _ _ Hrun) as [w Hw].
    split_and!; [by rewrite Hw; destruct state..|].
    intros Hn Hnan. by eapply nonneg_scaleSpeciesAmounts.
Qed.

End Invariant_of_calls.

Lemma invariant_new sys : invariant (ChemicalState_new sys).
Proof.
  unfold invariant, ChemicalState_new. simpl. split_and!; [done..|].
  by apply Forall_replicate.
Qed.

Lemma mutation_keeps_invariant_witness :
  Forall nonneg (n (with_n [111; 2; 2; 4]%float Examples.s1)) ∧
  is_positive (T (with_n [-1; 0; 0; 0]%float Examples.s0)) ∧
  is_positive (P (with_n [-1; 0; 0; 0]%float Examples.s0)) ∧
  invariant (with_n [111; 2; 2; 4]%float Examples.s1) ∧
  Forall nonneg (n (with_n [166.5; 3; 3; 6]%float Examples.s1)) ∧
  is_positive (T (with_n [166.5; 3; 3; 6]%float Examples.s1)) ∧
  is_positive (P (with_n [166.5; 3; 3; 6]%float Examples.s1)).
Proof.
  destruct (mutation_keeps_invariant (H:=Examples.externals))
    as (Hcall & Hplus & Htimes).
  assert (invariant Examples.s1) as Hs1.
  { unfold invariant. split_and!; [reflexivity..|]. by repeat constructor. }
  destruct (Hcall (SetSpeciesAmounts [-1; 0; 0; 0]%float) Examples.s0
              (with_n [-1; 0; 0; 0]%float Examples.s0) eq_refl)
    as (HT & HP & _).
  destruct (Hcall (ScaleSpeciesAmounts 2) Examples.s1
              (with_n [111; 2; 2; 4]%float Examples.s1) eq_refl)
    as (_ & _ & Hn).
  destruct (Htimes 3%float Examples.s1
              (with_n [166.5; 3; 3; 6]%float Examples.s1) (or_introl eq_refl))
    as (_ & _ & Hn3).
  destruct (Htimes 3%float Examples.s1
              (with_n [166.5; 3; 3; 6]%float Examples.s1) (or_intror eq_refl))
    as (HT3 & HP3 & _).
  split; [|split; [|split; [|split; [|split; [|split]]]]].
  - apply Hn; [apply Hs1|constructor|]. intros _. by repeat constructor.
  - by apply HT.
  - by apply HP.
  - apply (Hplus Examples.s1 Examples.s1); [exact Hs1..|reflexivity].
  - apply Hn3; [apply Hs1|]. by repeat constructor.
  - by apply HT3.
  - by apply HP3.
Defined.

(** C1 as stated fails: the vector overload of [setSpeciesAmounts] accepts
    a negative entry, and scaling an infinite amount by zero leaves NaN;
    both calls return, from states that satisfy the invariant. *)
Lemma mutators_break_invariant :
  (invariant Examples.s0 ∧
   setSpeciesAmounts [-1; 0; 0; 0]%float Examples.s0 =
     (Return tt, with_n [-1; 0; 0; 0]%float Examples.s0) ∧
   ¬ invariant (with_n [-1; 0; 0; 0]%float Examples.s0)) ∧
  (setSpeciesAmount 0 infinity Examples.s0 =
     (Return tt, with_n [infinity; 0; 0; 0]%float Examples.s0) ∧
   invariant (with_n [infinity; 0; 0; 0]%float Examples.s0) ∧
   scaleSpeciesAmounts 0 (with_n [infinity; 0; 0; 0]%float Examples.s0) =
     (Return tt, with_n [nan; 0; 0; 0]%float Examples.s0) ∧
   ¬ invariant (with_n [nan; 0; 0; 0]%float Examples.s0)).
Proof.
  split_and!; try reflexivity.
  - apply invariant_new.
  - intros (_ & _ & Hn). by apply Forall_cons in Hn as [Hneg _].
  - unfold invariant. split_and!; [reflexivity..|]. by repeat constructor.
  - intros (_ & _ & Hn). by apply Forall_cons in Hn as [Hnan _].
Qed.

(** ** One amount per species

    Every state the constructor builds has one amount per species, and
    every mutator call that returns keeps it so. *)

Lemma assign_rows_sized indices : ∀ v s s',
  assign_rows indices v s = (Return tt, s') →
  system s' = system s ∧ length (n s') = length (n s).
Proof.
  induction indices as [|i indices IH]; intros v s s'; simpl.
  - by intros [= <-].
  - destruct v as [|x v]; [by intros [= <-]|]. intros Hrun.
    destruct (decide (i < length (n s))) as [Hi|Hi].
    + erewrite bind_Return in Hrun by by apply write_n_lt.
      apply IH in Hrun as [-> ->]. simpl. by rewrite length_insert.
    + erewrite bind_Undefined in Hrun by (apply write_n_ge; lia). done.
Qed.

Section Sized.
Context `{Externals}.

Lemma sized_setSpeciesAmount index amount s s' :
  sized s → setSpeciesAmount index amount s = (Return tt, s') → sized s'.
Proof.
  unfold sized. intros Hs Hrun. unfold setSpeciesAmount, write_n in Hrun.
  returned Hrun. by rewrite length_insert.
Qed.

Lemma sized_setSpeciesAmount_units index amount units s s' :
  sized s → setSpeciesAmount_units index amount units s = (Return tt, s') →
  sized s'.
Proof.
  intros Hs Hrun. unfold setSpeciesAmount_units in Hrun.
  repeat case_match; returned Hrun; try done; eauto using sized_setSpeciesAmount.
Qed.

Lemma sized_scaleSpeciesAmounts scalar s s' :
  sized s → scaleSpeciesAmounts scalar s = (Return tt, s') → sized s'.
Proof.
  unfold sized. intros Hs. rewrite scaleSpeciesAmounts_eq.
  case_match; [|done]. intros [= <-]. simpl. by rewrite length_fmap.
Qed.

Lemma sized_scaleSpeciesAmountsInPhase index scalar s s' :
  sized s → scaleSpeciesAmountsInPhase index scalar s = (Return tt, s') →
  sized s'.
Proof.
  unfold sized. intros Hs Hrun. unfold scaleSpeciesAmountsInPhase in Hrun.
  unfold bind at 1 2 3, gets, Assert in Hrun. simpl in Hrun.
  destruct (0 <=? scalar)%float; [|done]. simpl in Hrun.
  case_bool_decide; [|done]. simpl in Hrun.
  apply for_each_scale_n_Return in Hrun as ->. simpl.
  by rewrite length_scale_rows.
Qed.

Lemma sized_call m s s' :
  sized s → call m s = (Return tt, s') → sized s'.
Proof.
  intros Hs Hrun. destruct m; simpl in *.
  - unfold setTemperature in Hrun. by returned Hrun.
  - unfold setTemperature_units, setTemperature in Hrun. by returned Hrun.
  - unfold setPressure in Hrun. by returned Hrun.
  - unfold setPressure_units, setPressure in Hrun. by returned Hrun.
  - unfold setSpeciesAmounts_val in Hrun. returned Hrun.
    unfold sized, fill. simpl. by rewrite length_replicate.
  - rewrite setSpeciesAmounts_eq in Hrun. by case_decide; simplify_eq.
  - unfold setSpeciesAmounts_indices in Hrun.
    unfold bind at 1, Assert in Hrun. case_bool_decide; [|done]. simpl in Hrun.
    apply assign_rows_sized in Hrun as [Hsys Hlen]. unfold sized. congruence.
  - by eapply sized_setSpeciesAmount.
  - unfold setSpeciesAmount_name, indexSpeciesWithError in Hrun.
    unfold bind at 1 2, gets in Hrun. simpl in Hrun.
    case_decide; [|done]. simpl in Hrun. by eapply sized_setSpeciesAmount.
  - by eapply sized_setSpeciesAmount_units.
  - unfold setSpeciesAmount_name_units, indexSpeciesWithError in Hrun.
    unfold bind at 1 2, gets in Hrun. simpl in Hrun.
    case_decide; [|done]. simpl in Hrun. by eapply sized_setSpeciesAmount_units.
  - unfold setElementPotentials in Hrun. by returned Hrun.
  - unfold setSpeciesPotentials in Hrun. by returned Hrun.
  - unfold setVolume in Hrun.
    unfold bind at 1 2 3 4 5, gets, Assert, temperature, pressure, speciesAmounts
      in Hrun.
    simpl in Hrun. destruct (0 <=? volume)%float; [|done]. simpl in Hrun.
    by eapply sized_scaleSpeciesAmounts.
  - unfold setPhaseVolume in Hrun. returned Hrun;
      by eapply sized_scaleSpeciesAmountsInPhase.
  - unfold setPhaseVolume_name, setPhaseVolume in Hrun. returned Hrun;
      by eapply sized_scaleSpeciesAmountsInPhase.
  - by eapply sized_scaleSpeciesAmounts.
  - by eapply sized_scaleSpeciesAmountsInPhase.
Qed.

End Sized.

(** X1: every state built by the constructor and changed by mutator calls
    that returned holds exactly one amount per species of its system. *)
Lemma reachable_sized `{Externals} s : reachable s → sized s.
Proof. induction 1; eauto using sized_new, sized_call. Qed.

(** On a state with one amount per species the loop over a phase stays
    within the vector: the call scales the rows of the phase and no
    others. *)
Lemma scaleSpeciesAmountsInPhase_eq `{Externals} index scalar s :
  sized s → nonneg scalar → index < numPhases (system s) →
  scaleSpeciesAmountsInPhase index scalar s =
  (Return tt,
   with_n (scale_rows scalar (indexFirstSpeciesInPhase (system s) index)
             (numSpeciesInPhase (system s) index) (n s)) s).
Proof.
  unfold sized, nonneg. intros Hsized Hscalar Hindex.
  unfold scaleSpeciesAmountsInPhase, bind at 1 2 3, gets, Assert. simpl.
  rewrite Hscalar, bool_decide_eq_true_2 by done. simpl.
  pose proof (phase_range _ _ Hindex) as Hrange.
  rewrite for_each_scale_n by lia. by rewrite Nat.add_0_r.
Qed.

(** X21: [extract] looks at the system, T, P and n only: two states that
    agree on these give every query the same result, whatever their
    potentials [y] and [z] are. *)
Lemma extract_inputs `{Externals} str s s' :
  system s = system s' → T s = T s' → P s = P s' → n s = n s' →
  (extract str s).1 = (extract str s').1.
Proof.
  destruct s, s'. simpl. intros -> -> -> ->.
  unfold extract, speciesAmount_name_units, speciesAmount_name, speciesAmount,
    elementAmount_name_units, elementAmount_name, elementAmount,
    elementAmountInPhase_name_units, elementAmountInPhase_name,
    elementAmountInPhase, indexSpeciesWithError, indexElementWithError,
    indexPhaseWithError, convert, read_n, at_, back, word_at, Assert,
    temperature, pressure, speciesAmounts, bind, ret, gets, get, raise,
    undefined.
  simpl. repeat (case_match; simplify_eq/=); congruence.
Qed.

(** * Further properties of the code *)

(** ** Temperature and pressure *)

Section Effects.
Context `{Externals}.

(** X2: every state built by the constructor and changed by mutator calls
    that returned has a temperature and a pressure above zero; no
    condition on the arguments of the calls is needed. *)
Theorem reachable_T_P_positive (s : ChemicalState) :
  reachable s → is_positive (T s) ∧ is_positive (P s).
Proof.
  induction 1 as [sys|m s s' _ [HT HP] Hrun]; [done|].
  apply call_effect in Hrun
    as [[w ->]|[(val & Hval & ->)|[(val & Hval & ->)|[[v ->]|[v ->]]]]]; done.
Qed.

End Effects.

Lemma reachable_T_P_positive_witness :
  is_positive (T (with_T 350 Examples.s0)) ∧
  is_positive (P (with_T 350 Examples.s0)).
Proof.
  apply (reachable_T_P_positive (H:=Examples.externals)).
  apply (reachable_call (SetTemperature 350) Examples.s0);
    [apply reachable_new|reflexivity].
Defined.

Lemma reachable_sized_witness :
  sized (with_n [0; 2; 0; 0]%float Examples.s0).
Proof.
  apply (reachable_sized (H:=Examples.externals)).
  apply (reachable_call (SetSpeciesAmountName "H+" 2) Examples.s0);
    [apply reachable_new|reflexivity].
Defined.

(** ** Setting and reading amounts *)

Lemma speciesAmount_eq index s :
  speciesAmount index s =
  if decide (index < numSpecies (system s)) then
    match n s !! index with
    | Some x => (Return x, s)
    | None => (Undefined, s)
    end
  else (Throw (Raised "Cannot get the molar amount of the species."
          "The given index is out-of-range."), s).
Proof.
  unfold speciesAmount, read_n, bind, gets, get, Assert. simpl.
  destruct (decide _).
  - rewrite bool_decide_eq_true_2 by done. simpl. by destruct (n s !! index).
  - by rewrite bool_decide_eq_false_2.
Qed.

(** X3: on a state with one amount per species, [setSpeciesAmount(index,
    amount)] with a valid index and an amount [>= 0] returns; afterwards
    [speciesAmount(index)] returns that amount and [speciesAmount] of every
    other index ends as it did before. *)
Theorem setSpeciesAmount_then_speciesAmount
    (index : nat) (amount : float) (s : ChemicalState) :
  sized s → index < numSpecies (system s) → nonneg amount →
  ∃ s', setSpeciesAmount index amount s = (Return tt, s') ∧
    speciesAmount index s' = (Return amount, s') ∧
    ∀ j, j ≠ index → (speciesAmount j s').1 = (speciesAmount j s).1.
Proof.
  unfold sized, nonneg. intros Hsized Hindex Hamount.
  rewrite setSpeciesAmount_eq, Hamount, decide_True by done.
  eexists. split; [done|]. split.
  - rewrite speciesAmount_eq. simpl. rewrite decide_True by done.
    by rewrite list_lookup_insert_eq by lia.
  - intros j Hj. rewrite !speciesAmount_eq. simpl.
    rewrite list_lookup_insert_ne by done.
    case_decide; [|done]. by destruct (n s !! j).
Qed.

Lemma setSpeciesAmount_then_speciesAmount_witness :
  ∃ s', setSpeciesAmount 2 0.25 Examples.s1 = (Return tt, s') ∧
    speciesAmount 2 s' = (Return 0.25%float, s') ∧
    (speciesAmount 0 s').1 = Return 55.5%float.
Proof.
  destruct (setSpeciesAmount_then_speciesAmount 2 0.25 Examples.s1)
    as (s' & Hset & Hget & Hother); [reflexivity|vm_compute; lia|reflexivity|].
  exists s'. split_and!; [exact Hset|exact Hget|].
  rewrite (Hother 0) by discriminate. reflexivity.
Defined.

Lemma indexSpeciesWithError_eq name s :
  indexSpeciesWithError name s =
  if decide (name ∈ species_name <$> species (system s))
  then (Return (indexSpecies (system s) name), s)
  else (Throw (UnknownSpecies name), s).
Proof.
  unfold indexSpeciesWithError, bind, gets. simpl.
  destruct (decide (name ∈ _)) as [Hin|Hin].
  - apply index_elem_of in Hin as [Hlt _]. rewrite length_fmap in Hlt.
    by rewrite decide_True.
  - apply index_not_elem_of in Hin. rewrite length_fmap in Hin.
    unfold indexSpecies. rewrite Hin. by rewrite decide_False by (unfold numSpecies; lia).
Qed.

(** X4: [setSpeciesAmount(name, amount)] with a name that no species of
    the system has throws the lookup error and writes nothing; with the
    name of a species and an amount [>= 0] it returns, the amount is stored
    at the first species of that name, and [speciesAmount(name)] then
    returns it. *)
Theorem setSpeciesAmount_name_spec (name : string) (amount : float) (s : ChemicalState) :
  (name ∉ species_name <$> species (system s) →
     setSpeciesAmount_name name amount s = (Throw (UnknownSpecies name), s)) ∧
  (name ∈ species_name <$> species (system s) → sized s → nonneg amount →
     ∃ s', setSpeciesAmount_name name amount s = (Return tt, s') ∧
       n s' = <[indexSpecies (system s) name:=amount]> (n s) ∧
       (species_name <$> species (system s)) !! indexSpecies (system s) name
         = Some name ∧
       speciesAmount_name name s' = (Return amount, s')).
Proof.
  unfold setSpeciesAmount_name, speciesAmount_name. split.
  - intros Hnot. unfold bind at 1. rewrite indexSpeciesWithError_eq.
    by rewrite decide_False.
  - intros Hin Hsized Hamount. unfold bind at 1.
    rewrite indexSpeciesWithError_eq, decide_True by done.
    destruct (index_elem_of _ _ Hin) as [Hlt Hname]. rewrite length_fmap in Hlt.
    change (indexSpecies (system s) name < numSpecies (system s)) in Hlt.
    rewrite setSpeciesAmount_eq by done. unfold nonneg in Hamount.
    rewrite Hamount, decide_True by done.
    eexists. split; [done|]. simpl. split_and!; try done.
    unfold bind. rewrite indexSpeciesWithError_eq. simpl.
    rewrite decide_True by done. rewrite speciesAmount_eq. simpl.
    rewrite decide_True by done.
    unfold sized in *. by rewrite list_lookup_insert_eq by lia.
Qed.

Lemma setSpeciesAmount_name_spec_witness :
  setSpeciesAmount_name "Na+" 1 Examples.s1 = (Throw (UnknownSpecies "Na+"), Examples.s1) ∧
  ∃ s', setSpeciesAmount_name "OH-" 3 Examples.s1 = (Return tt, s') ∧
    n s' = [55.5; 1; 3; 2]%float ∧
    speciesAmount_name "OH-" s' = (Return 3%float, s').
Proof.
  split.
  - apply (proj1 (setSpeciesAmount_name_spec "Na+" 1 Examples.s1)).
    intros Hin%list_elem_of_In. simpl in Hin. intuition discriminate.
  - destruct (proj2 (setSpeciesAmount_name_spec "OH-" 3 Examples.s1))
      as (s' & Hset & Hn & _ & Hget); [|reflexivity..|].
    + apply list_elem_of_In. simpl. tauto.
    + exists s'. split_and!; [exact Hset|rewrite Hn; reflexivity|exact Hget].
Defined.

(** X5: [setSpeciesAmounts(val)] with [val >= 0] returns and afterwards
    [speciesAmount] of every valid index returns [val]; a [val] that is
    negative or NaN is refused and nothing is written. *)
Theorem setSpeciesAmounts_val_spec (val : float) (s : ChemicalState) :
  sized s →
  (nonneg val →
     ∃ s', setSpeciesAmounts_val val s = (Return tt, s') ∧
       ∀ index, index < numSpecies (system s) →
         speciesAmount index s' = (Return val, s')) ∧
  ((0 <=? val)%float = false →
     setSpeciesAmounts_val val s =
     (Throw (Raised "Cannot set the molar amounts of the species."
        "The given molar abount is negative."), s)).
Proof.
  unfold sized, nonneg. intros Hsized.
  unfold setSpeciesAmounts_val, bind, Assert, modify. split; intros ->; [|done].
  simpl. eexists. split; [done|]. intros index Hindex.
  rewrite speciesAmount_eq. simpl. rewrite decide_True by done.
  unfold fill. by rewrite lookup_replicate_2 by lia.
Qed.

Lemma setSpeciesAmounts_val_spec_witness :
  (∃ s', setSpeciesAmounts_val 7 Examples.s1 = (Return tt, s') ∧
     speciesAmount 3 s' = (Return 7%float, s')) ∧
  setSpeciesAmounts_val nan Examples.s1 =
    (Throw (Raised "Cannot set the molar amounts of the species."
       "The given molar abount is negative."), Examples.s1).
Proof.
  split.
  - destruct (setSpeciesAmounts_val_spec 7 Examples.s1) as [Hok _]; [reflexivity|].
    destruct Hok as (s' & Hset & Hget); [reflexivity|].
    exists s'. split; [exact Hset|]. apply Hget. vm_compute. lia.
  - destruct (setSpeciesAmounts_val_spec nan Examples.s1) as [_ Hbad]; [reflexivity|].
    apply Hbad. reflexivity.
Defined.

(** ** Rows assigned through indices *)

Lemma length_assigned indices : ∀ v rows,
  length (assigned indices v rows) = length rows.
Proof.
  induction indices as [|i indices IH]; intros [|x v] rows; simpl; try done.
  by rewrite IH, length_insert.
Qed.

Lemma assigned_other indices j : ∀ v (rows : list float),
  j ∉ indices → assigned indices v rows !! j = rows !! j.
Proof.
  induction indices as [|i indices IH]; intros [|x v] rows Hj; simpl; try done.
  apply not_elem_of_cons in Hj as [Hne Hj].
  rewrite IH by done. by apply list_lookup_insert_ne.
Qed.

Lemma assigned_at indices : ∀ v (rows : list float) k i x,
  NoDup indices → indices !! k = Some i → v !! k = Some x → i < length rows →
  assigned indices v rows !! i = Some x.
Proof.
  induction indices as [|i' indices IH]; intros [|x' v] rows k i x Hnodup Hi Hx Hlt;
    try by destruct k.
  apply NoDup_cons in Hnodup as [Hnotin Hnodup]. destruct k as [|k]; simpl in *.
  - simplify_eq. rewrite assigned_other by done.
    by apply list_lookup_insert_eq.
  - eapply IH; eauto. by rewrite length_insert.
Qed.

Lemma assign_rows_in_range indices : ∀ v s,
  Forall (λ i, i < length (n s)) indices →
  assign_rows indices v s = (Return tt, with_n (assigned indices v (n s)) s).
Proof.
  induction indices as [|i indices IH]; intros [|x v] s Hin; simpl;
    try by rewrite with_n_id.
  apply Forall_cons in Hin as [Hi Hin].
  erewrite bind_Return by by apply write_n_lt.
  rewrite IH; [done|]. simpl. by rewrite length_insert.
Qed.

Lemma assign_rows_out_of_range indices : ∀ v s i,
  length v = length indices → i ∈ indices → length (n s) ≤ i →
  ∃ s', assign_rows indices v s = (Undefined, s').
Proof.
  induction indices as [|j indices IH]; intros [|x v] s i Hlen Hi Hge;
    try done; [by apply elem_of_nil in Hi|]. simpl.
  destruct (decide (j < length (n s))) as [Hj|Hj].
  - erewrite bind_Return by by apply write_n_lt.
    apply elem_of_cons in Hi as [->|Hi]; [lia|].
    eapply IH; eauto. simpl. by rewrite length_insert.
  - erewrite bind_Undefined by (apply write_n_ge; lia). eauto.
Qed.

(** X6: [setSpeciesAmounts(v, indices)] with as many values as indices,
    all indices within the amounts, returns; the amounts keep their
    number, every row that is not among the indices keeps its value and,
    when no index is repeated, the row of each index holds the value given
    for it.  With different numbers of values and indices the call throws
    and writes nothing. *)
Theorem setSpeciesAmounts_indices_spec
    (v : list float) (indices : list nat) (s : ChemicalState) :
  (length v = length indices →
   Forall (λ i, i < length (n s)) indices →
   ∃ s', setSpeciesAmounts_indices v indices s = (Return tt, s') ∧
     s' = with_n (n s') s ∧
     length (n s') = length (n s) ∧
     (∀ j, j ∉ indices → n s' !! j = n s !! j) ∧
     (NoDup indices → ∀ k i x,
        indices !! k = Some i → v !! k = Some x → n s' !! i = Some x)) ∧
  (length v ≠ length indices →
   setSpeciesAmounts_indices v indices s =
   (Throw (Raised "Cannot set the molar amounts of the species with given indices."
      "The dimension of the molar abundance vector is different than the number of indices."), s)).
Proof.
  unfold setSpeciesAmounts_indices, bind at 1, Assert. split.
  - intros Hlen Hin. rewrite bool_decide_eq_true_2 by done. simpl.
    rewrite assign_rows_in_range by done.
    eexists. split; [done|]. simpl. split_and!; [done|..].
    + apply length_assigned.
    + intros j Hj. by apply assigned_other.
    + intros Hnodup k i x Hi Hx. eapply assigned_at; eauto.
      eapply Forall_lookup_1 in Hin; eauto.
  - intros Hlen. by rewrite bool_decide_eq_false_2.
Qed.

Lemma setSpeciesAmounts_indices_spec_witness :
  (∃ s', setSpeciesAmounts_indices [7; 8]%float [3; 0] Examples.s1 = (Return tt, s') ∧
     n s' = [8; 1; 1; 7]%float) ∧
  setSpeciesAmounts_indices [7]%float [3; 0] Examples.s1 =
    (Throw (Raised "Cannot set the molar amounts of the species with given indices."
       "The dimension of the molar abundance vector is different than the number of indices."),
     Examples.s1).
Proof.
  destruct (setSpeciesAmounts_indices_spec [7; 8]%float [3; 0] Examples.s1)
    as [Hok _].
  destruct (setSpeciesAmounts_indices_spec [7]%float [3; 0] Examples.s1)
    as [_ Hbad].
  split.
  - destruct Hok as (s' & Hrun & _ & Hlen & Hother & Hat); [reflexivity|..].
    + repeat constructor.
    + exists s'. split; [exact Hrun|].
      assert (NoDup [3; 0]) as Hnodup by (apply NoDup_ListNoDup; repeat constructor;
        simpl; intuition discriminate).
      apply list_eq. intros [|[|[|[|j]]]].
      * apply (Hat Hnodup 1 0 8%float); reflexivity.
      * rewrite Hother; [reflexivity|].
        intros Hin%list_elem_of_In. simpl in Hin. intuition discriminate.
      * rewrite Hother; [reflexivity|].
        intros Hin%list_elem_of_In. simpl in Hin. intuition discriminate.
      * apply (Hat Hnodup 0 3 7%float); reflexivity.
      * simpl. apply lookup_ge_None_2. rewrite Hlen. simpl. lia.
  - apply Hbad. simpl. lia.
Defined.

(** ** Where the mutators can go wrong *)

Section Unchecked.
Context `{Externals}.

Lemma scaleSpeciesAmountsInPhase_cases index scalar s :
  sized s →
  scaleSpeciesAmountsInPhase index scalar s =
  if (0 <=? scalar)%float then
    if decide (index < numPhases (system s))
    then (Return tt,
          with_n (scale_rows scalar (indexFirstSpeciesInPhase (system s) index)
                    (numSpeciesInPhase (system s) index) (n s)) s)
    else (Throw (Raised "Cannot set the volume of the phase."
            "The given phase index is out of range."), s)
  else (Throw (Raised "Cannot scale the molar amounts of the species."
          ("The given scalar `" +:+ to_string scalar +:+ "` is negative.")), s).
Proof.
  intros Hsized. destruct (0 <=? scalar)%float eqn:Hscalar.
  - destruct (decide _) as [Hindex|Hindex].
    + by apply scaleSpeciesAmountsInPhase_eq.
    + unfold scaleSpeciesAmountsInPhase, bind at 1 2 3, gets, Assert. simpl.
      by rewrite Hscalar, bool_decide_eq_false_2.
  - unfold scaleSpeciesAmountsInPhase, bind at 1 2 3, gets, Assert. simpl.
    by rewrite Hscalar.
Qed.

Lemma setPhaseVolume_cases index volume s :
  setPhaseVolume index volume s =
  if (0 <=? volume)%float then
    if decide (index < numPhases (system s)) then
      match phaseVolumes (system s) (T s) (P s) (n s) !! index with
      | Some vi =>
          scaleSpeciesAmountsInPhase index
            (if negb (vi =? 0) then volume / vi else 0)%float s
      | None => (Undefined, s)
      end
    else (Throw (Raised "Cannot set the volume of the phase."
            "The given phase index is out of range."), s)
  else (Throw (Raised "Cannot set the volume of the phase."
          "The given volume is negative."), s).
Proof.
  unfold setPhaseVolume, bind at 1 2 3 4 5 6 7, gets, Assert, temperature,
    pressure, speciesAmounts, at_.
  simpl. destruct (0 <=? volume)%float; [|done]. simpl.
  destruct (decide _).
  - rewrite bool_decide_eq_true_2 by done. simpl.
    by destruct (phaseVolumes _ _ _ _ !! index).
  - by rewrite bool_decide_eq_false_2.
Qed.

Lemma setSpeciesAmount_units_cases index amount units s :
  setSpeciesAmount_units index amount units s =
  if units_convertible units "mol" then
    setSpeciesAmount index (units_convert amount units "mol") s
  else if units_convertible units "kg" then
    match species (system s) !! index with
    | Some sp =>
        setSpeciesAmount index (units_convert amount units "kg" / molarMass sp)%float s
    | None => (Undefined, s)
    end
  else
    (Throw (Raised "Cannot set the amount of the species."
       ("The provided units `" +:+ units +:+
        "` is not convertible to units of amount or mass (e.g., mol and kg).")), s).
Proof.
  unfold setSpeciesAmount_units, convert.
  destruct (units_convertible units "mol") eqn:Hmol; [done|].
  destruct (units_convertible units "kg") eqn:Hkg; [|done].
  unfold system_species, bind at 1 2, gets. simpl.
  by destruct (species (system s) !! index).
Qed.

Lemma defined_setSpeciesAmount index amount s :
  sized s → (setSpeciesAmount index amount s).1 ≠ Undefined.
Proof.
  intros Hsized. rewrite setSpeciesAmount_eq by done. by repeat case_match.
Qed.

Lemma defined_scaleSpeciesAmounts scalar s :
  (scaleSpeciesAmounts scalar s).1 ≠ Undefined.
Proof. rewrite scaleSpeciesAmounts_eq. by case_match. Qed.

Lemma defined_scaleSpeciesAmountsInPhase index scalar s :
  sized s → (scaleSpeciesAmountsInPhase index scalar s).1 ≠ Undefined.
Proof.
  intros Hsized. rewrite scaleSpeciesAmountsInPhase_cases by done.
  by repeat case_match.
Qed.

Lemma undefined_setSpeciesAmount_units index amount units s :
  sized s →
  (setSpeciesAmount_units index amount units s).1 = Undefined ↔
  numSpecies (system s) ≤ index ∧
  units_convertible units "mol" = false ∧ units_convertible units "kg" = true.
Proof.
  intros Hsized. rewrite setSpeciesAmount_units_cases.
  destruct (units_convertible units "mol").
  { split; [|by intros (_ & ? & _)].
    intros Hu. by apply defined_setSpeciesAmount in Hu. }
  destruct (units_convertible units "kg"); [|split; [done|by intros (_ & _ & ?)]].
  destruct (species (system s) !! index) as [sp|] eqn:Hsp.
  - apply lookup_lt_Some in Hsp. split.
    + intros Hu. by apply defined_setSpeciesAmount in Hu.
    + unfold numSpecies. lia.
  - apply lookup_ge_None in Hsp. done.
Qed.

Lemma undefined_setPhaseVolume index volume s :
  sized s →
  (setPhaseVolume index volume s).1 = Undefined ↔
  nonneg volume ∧ index < numPhases (system s) ∧
  length (phaseVolumes (system s) (T s) (P s) (n s)) ≤ index.
Proof.
  intros Hsized. rewrite setPhaseVolume_cases. unfold nonneg.
  destruct (0 <=? volume)%float; [|split; [done|by intros (? & _)]].
  destruct (decide _) as [Hindex|Hindex]; [|split; [done|by intros (_ & ? & _)]].
  destruct (phaseVolumes _ _ _ _ !! index) as [vi|] eqn:Hvi.
  - apply lookup_lt_Some in Hvi. split; [|lia].
    intros Hu. by apply defined_scaleSpeciesAmountsInPhase in Hu.
  - apply lookup_ge_None in Hvi. done.
Qed.

Lemma undefined_setSpeciesAmounts_indices v indices s :
  (setSpeciesAmounts_indices v indices s).1 = Undefined ↔
  length v = length indices ∧ ∃ i, i ∈ indices ∧ length (n s) ≤ i.
Proof.
  unfold setSpeciesAmounts_indices, bind at 1, Assert.
  case_bool_decide as Hlen; simpl; [|split; [done|by intros (? & _)]].
  destruct (decide (Forall (λ i, i < length (n s)) indices)) as [Hin|Hout].
  - rewrite assign_rows_in_range by done. simpl. split; [done|].
    intros (_ & i & Hi & Hge). rewrite Forall_forall in Hin.
    apply Hin in Hi. lia.
  - assert (Exists (not ∘ (λ i, i < length (n s))) indices) as Hex.
    { apply not_Forall_Exists; [|done]. intros i. apply Nat.lt_dec. }
    apply Exists_exists in Hex as (i & Hi & Hge). simpl in Hge.
    destruct (assign_rows_out_of_range indices v s i) as [s' ->]; [done..|lia|].
    split; [|done]. intros _. split; [done|]. exists i. split; [done|lia].
Qed.

(** Calls that only check and assign. *)
Ltac checks_only :=
  unfold convert, Assert, bind, modify, ret, raise;
  repeat match goal with |- context [if ?c then _ else _] => destruct c end;
  simpl; split.

(** X7: on a state with one amount per species a mutator call ends in
    undefined behaviour exactly when its arguments pass the checks and
    reach one of the three unchecked accesses: [setSpeciesAmounts(v,
    indices)] with an index beyond the amounts, [setSpeciesAmount(index,
    amount, units)] with mass units and an index beyond the species, and
    [setPhaseVolume] when the property model returned fewer volumes than
    the phase index.  Every other call returns or throws. *)
Theorem undefined_iff_unchecked (m : Mutation) (s : ChemicalState) :
  sized s → (call m s).1 = Undefined ↔ unchecked m s.
Proof.
  intros Hsized. destruct m; simpl.
  - unfold setTemperature. by checks_only.
  - unfold setTemperature_units, setTemperature. by checks_only.
  - unfold setPressure. by checks_only.
  - unfold setPressure_units, setPressure. by checks_only.
  - unfold setSpeciesAmounts_val. by checks_only.
  - rewrite setSpeciesAmounts_eq. by checks_only.
  - apply undefined_setSpeciesAmounts_indices.
  - split; [|done]. intros Hu. by apply defined_setSpeciesAmount in Hu.
  - split; [|done]. unfold setSpeciesAmount_name, bind.
    rewrite indexSpeciesWithError_eq. case_decide; [|done].
    intros Hu. by apply defined_setSpeciesAmount in Hu.
  - by apply undefined_setSpeciesAmount_units.
  - split; [|done]. unfold setSpeciesAmount_name_units, bind.
    rewrite indexSpeciesWithError_eq. case_decide as Hin; [|done].
    intros Hu. apply undefined_setSpeciesAmount_units in Hu as [Hge _]; [|done].
    apply index_elem_of in Hin as [Hlt _]. rewrite length_fmap in Hlt.
    unfold numSpecies, indexSpecies in Hge. lia.
  - done.
  - done.
  - split; [|done]. unfold setVolume.
    unfold bind at 1 2 3 4 5, gets, Assert, temperature, pressure, speciesAmounts.
    simpl. destruct (0 <=? volume)%float; [|done]. simpl.
    intros Hu. by apply defined_scaleSpeciesAmounts in Hu.
  - by apply undefined_setPhaseVolume.
  - unfold setPhaseVolume_name, bind at 1, gets. simpl.
    by apply undefined_setPhaseVolume.
  - split; [|done]. intros Hu. by apply defined_scaleSpeciesAmounts in Hu.
  - split; [|done]. intros Hu. by apply defined_scaleSpeciesAmountsInPhase in Hu.
Qed.

End Unchecked.

Lemma undefined_iff_unchecked_witness :
  (call (H:=Examples.externals)
     (SetSpeciesAmountUnits 9 1 "g") Examples.s1).1 = Undefined ∧
  unchecked (H:=Examples.externals)
    (SetSpeciesAmountsIndices [1; 2]%float [0; 4]) Examples.s1.
Proof.
  split.
  - apply (undefined_iff_unchecked (H:=Examples.externals)); [reflexivity|].
    simpl. split_and!; [vm_compute; lia|reflexivity..].
  - apply (undefined_iff_unchecked (H:=Examples.externals)); reflexivity.
Defined.

(** X8: the unit overload reads the molar mass before any check of the
    index.  With an index beyond the species, units of mass reach the
    unchecked [species(index)].  Units of amount go through the checks of
    [setSpeciesAmount(index, amount)] in their order, the amount first: a
    converted amount that is [>= 0] gives the out-of-range error, one that
    is not -- negative or NaN -- gives the negative-amount error.  The
    state is left alone in each case. *)
Theorem setSpeciesAmount_units_index_check `{Externals}
    (index : nat) (amount : float) (units : string) (s : ChemicalState) :
  sized s → numSpecies (system s) ≤ index →
  (units_convertible units "mol" = true →
   setSpeciesAmount_units index amount units s =
   if (0 <=? units_convert amount units "mol")%float
   then (Throw (Raised "Cannot set the molar amount of the species."
           "The given index is out-of-range."), s)
   else (Throw (Raised "Cannot set the molar amount of the species."
           "The given molar amount is negative."), s)) ∧
  (units_convertible units "mol" = false →
   units_convertible units "kg" = true →
   setSpeciesAmount_units index amount units s = (Undefined, s)).
Proof.
  intros Hsized Hindex. rewrite setSpeciesAmount_units_cases. split.
  - intros ->. rewrite setSpeciesAmount_eq by done.
    destruct (0 <=? units_convert amount units "mol")%float; [|done].
    by rewrite decide_False by lia.
  - intros -> ->. by rewrite lookup_ge_None_2.
Qed.

Lemma setSpeciesAmount_units_index_check_witness :
  setSpeciesAmount_units (H:=Examples.externals) 4 1 "mmol" Examples.s1 =
    (Throw (Raised "Cannot set the molar amount of the species."
       "The given index is out-of-range."), Examples.s1) ∧
  setSpeciesAmount_units (H:=Examples.externals) 4 (-1) "mmol" Examples.s1 =
    (Throw (Raised "Cannot set the molar amount of the species."
       "The given molar amount is negative."), Examples.s1) ∧
  setSpeciesAmount_units (H:=Examples.externals) 4 1 "g" Examples.s1 =
    (Undefined, Examples.s1).
Proof.
  destruct (setSpeciesAmount_units_index_check (H:=Examples.externals)
              4 1 "mmol" Examples.s1) as [Hmol _]; [reflexivity|vm_compute; lia|].
  destruct (setSpeciesAmount_units_index_check (H:=Examples.externals)
              4 (-1) "mmol" Examples.s1) as [Hneg _]; [reflexivity|vm_compute; lia|].
  destruct (setSpeciesAmount_units_index_check (H:=Examples.externals)
              4 1 "g" Examples.s1) as [_ Hkg]; [reflexivity|vm_compute; lia|].
  split; [|split]; [apply Hmol|apply Hneg|apply Hkg]; reflexivity.
Defined.

(** ** Phases *)

Lemma species_in_phase sys iphase p k sp :
  phases sys !! iphase = Some p → phase_species p !! k = Some sp →
  species sys !! (indexFirstSpeciesInPhase sys iphase + k) = Some sp.
Proof.
  intros Hp Hk. unfold species, indexFirstSpeciesInPhase.
  rewrite <-(take_drop_middle _ _ _ Hp) at 2.
  rewrite collectSpecies_app, lookup_app_r by lia.
  replace (_ + k - _) with k by lia.
  change (p :: drop (S iphase) (phases sys)) with ([p] ++ drop (S iphase) (phases sys)).
  rewrite collectSpecies_app.
  assert (collectSpecies [p] = phase_species p) as ->
    by (unfold collectSpecies; simpl; apply app_nil_r).
  by apply lookup_app_l_Some.
Qed.

(** X9: on a state with one amount per species, scaling within a phase of
    the system by a scalar [>= 0] returns; the species of that phase sit at
    the rows from the first species index of the phase on, exactly these
    rows are multiplied by the scalar, and every other row, like the
    temperature, the pressure and the potentials, stays as it was. *)
Theorem scaleSpeciesAmountsInPhase_spec `{Externals}
    (index : nat) (scalar : float) (s : ChemicalState) (p : Phase) :
  sized s → nonneg scalar → phases (system s) !! index = Some p →
  let start := indexFirstSpeciesInPhase (system s) index in
  ∃ s', scaleSpeciesAmountsInPhase index scalar s = (Return tt, s') ∧
    s' = with_n (n s') s ∧
    (∀ k sp, phase_species p !! k = Some sp →
       species (system s) !! (start + k) = Some sp ∧
       ∃ x, n s !! (start + k) = Some x ∧
            n s' !! (start + k) = Some (x * scalar)%float) ∧
    (∀ i, ¬ (start ≤ i < start + length (phase_species p)) →
       n s' !! i = n s !! i).
Proof.
  intros Hsized Hscalar Hp start.
  assert (index < numPhases (system s)) as Hindex by by eapply lookup_lt_Some.
  pose proof (phase_range _ _ Hindex) as Hrange.
  rewrite scaleSpeciesAmountsInPhase_eq by done.
  unfold numSpeciesInPhase in *. rewrite Hp in *. simpl in *.
  eexists. split; [done|]. simpl. split_and!; [done|..].
  - intros k sp Hk. split; [by eapply species_in_phase|].
    apply lookup_lt_Some in Hk.
    destruct (lookup_lt_is_Some_2 (n s) (start + k)) as [x Hx].
    { unfold sized in Hsized. unfold start. lia. }
    exists x. split; [done|]. rewrite lookup_scale_rows, Hx. simpl.
    rewrite decide_True; [done|]. unfold start. lia.
  - intros i Hi. rewrite lookup_scale_rows.
    destruct (n s !! i); simpl; [|done]. by rewrite decide_False.
Qed.

Lemma scaleSpeciesAmountsInPhase_spec_witness :
  ∃ s', scaleSpeciesAmountsInPhase (H:=Examples.externals) 1 3 Examples.s1 =
          (Return tt, s') ∧
    species (system Examples.s1) !! 3 = Some Examples.CO2g ∧
    n s' !! 3 = Some 6%float ∧ n s' !! 0 = Some 55.5%float.
Proof.
  destruct (scaleSpeciesAmountsInPhase_spec (H:=Examples.externals)
              1 3 Examples.s1 Examples.gaseous)
    as (s' & Hrun & _ & Hin & Hout); [reflexivity..|].
  exists s'. split; [exact Hrun|].
  destruct (Hin 0 Examples.CO2g) as (Hsp & x & Hx & Hx'); [reflexivity|].
  split; [exact Hsp|]. split.
  - assert (x = 2%float) as -> by (injection Hx as <-; reflexivity).
    exact Hx'.
  - rewrite Hout; [reflexivity|]. vm_compute. lia.
Defined.

(** X10: [setPhaseVolume(name, volume)] looks the phase up without a
    check of its own: for a name that no phase has, a volume [>= 0] gives
    the out-of-range error of the index overload, a volume that is not
    [>= 0] the volume error; nothing is written either way. *)
Theorem setPhaseVolume_name_unknown `{Externals}
    (name : string) (volume : float) (s : ChemicalState) :
  name ∉ phase_name <$> phases (system s) →
  setPhaseVolume_name name volume s =
  if (0 <=? volume)%float
  then (Throw (Raised "Cannot set the volume of the phase."
          "The given phase index is out of range."), s)
  else (Throw (Raised "Cannot set the volume of the phase."
          "The given volume is negative."), s).
Proof.
  intros Hnot. apply index_not_elem_of in Hnot. rewrite length_fmap in Hnot.
  unfold setPhaseVolume_name, bind at 1, gets. simpl.
  rewrite setPhaseVolume_cases. case_match; [|done].
  rewrite decide_False; [done|]. unfold indexPhase, numPhases. lia.
Qed.

Lemma setPhaseVolume_name_unknown_witness :
  setPhaseVolume_name (H:=Examples.externals) "Solid" 2 Examples.s1 =
    (Throw (Raised "Cannot set the volume of the phase."
       "The given phase index is out of range."), Examples.s1) ∧
  setPhaseVolume_name (H:=Examples.externals) "Solid" (-2) Examples.s1 =
    (Throw (Raised "Cannot set the volume of the phase."
       "The given volume is negative."), Examples.s1).
Proof.
  assert ("Solid" ∉ phase_name <$> phases (system Examples.s1)) as Hnot.
  { intros Hin%list_elem_of_In. simpl in Hin. intuition discriminate. }
  split.
  - exact (setPhaseVolume_name_unknown (H:=Examples.externals) "Solid" 2
             Examples.s1 Hnot).
  - exact (setPhaseVolume_name_unknown (H:=Examples.externals) "Solid" (-2)
             Examples.s1 Hnot).
Defined.

(** X11: [setVolume(volume)] with a volume [>= 0] multiplies every amount
    by one scalar, the volume over the sum of the phase volumes at the
    state's T, P and n, or zero when that sum compares equal to zero: no
    error is raised for a state without volume, its amounts are multiplied
    by zero.  When the scalar is not [>= 0] (a negative or NaN sum) the
    call throws the error of [scaleSpeciesAmounts]; a volume that is not
    [>= 0] throws the volume error.  Nothing is written when it throws. *)
Theorem setVolume_spec `{Externals} (volume : float) (s : ChemicalState) :
  let vtotal := sum (phaseVolumes (system s) (T s) (P s) (n s)) in
  let scalar := (if negb (vtotal =? 0) then volume / vtotal else 0)%float in
  setVolume volume s =
  if (0 <=? volume)%float then
    if (0 <=? scalar)%float
    then (Return tt, with_n ((λ x, x * scalar)%float <$> n s) s)
    else (Throw (Raised "Cannot scale the molar amounts of the species."
            "The given scalar is negative."), s)
  else (Throw (Raised "Cannot set the volume of the chemical state."
          "The given volume is negative."), s).
Proof.
  intros vtotal scalar. unfold setVolume.
  unfold bind at 1 2 3 4 5, gets, Assert, temperature, pressure, speciesAmounts.
  simpl. destruct (0 <=? volume)%float; [|done]. simpl.
  by rewrite scaleSpeciesAmounts_eq.
Qed.

(** ** More on the sum of two states *)

(** IEEE addition commutes. *)
Lemma float_add_comm (x x' : float) : (x + x')%float = (x' + x)%float.
Proof.
  apply Prim2SF_inj. rewrite !FloatAxioms.add_spec. unfold SF64add, SFadd.
  destruct (Prim2SF x) as [[]|[]| |sx mx ex];
    destruct (Prim2SF x') as [[]|[]| |sy my ey]; try done.
  by rewrite Z.min_comm, Z.add_comm.
Qed.

Lemma zip_with_add_comm (v w : list float) :
  zip_with PrimFloat.add v w = zip_with PrimFloat.add w v.
Proof.
  revert w. induction v as [|x v IH]; intros [|x' w]; simpl; try done.
  by rewrite float_add_comm, IH.
Qed.



(** X13: [l + r] forms the sum of the two amount vectors before any
    check.  When the left operand holds one amount per species and the
    right operand as many, the sum has that many entries too, the
    dimension check of [setSpeciesAmounts] that follows is passed and the
    call returns the state with the summed amounts.  Operands with
    different numbers of amounts reach the vector sum unchecked: that is
    undefined behaviour, and nothing is said of what follows it. *)
Theorem operator_plus_cases (l r : ChemicalState) :
  sized l →
  operator_plus l r =
  if decide (length (n l) = length (n r))
  then Return (with_n (zip_with PrimFloat.add (n l) (n r)) l)
  else Undefined.
Proof.
  unfold sized. intros Hl. unfold operator_plus, vadd.
  case_decide as Hlen; [|done]. rewrite setSpeciesAmounts_eq.
  by rewrite decide_True by (rewrite length_zip_with; lia).
Qed.

Lemma operator_plus_cases_witness :
  operator_plus Examples.s1
    (ChemicalState_new
       {| phases := [Examples.gaseous]; element_names := ["C"; "O"];
          phaseVolumes _ _ v := v; activities _ _ v := v;
          system_elementAmount _ _ := 0%float;
          system_elementAmountInPhase _ _ _ := 0%float |}) = Undefined.
Proof. rewrite operator_plus_cases; reflexivity. Defined.

(** ** More on [extract] *)

Lemma split_from_end delims word str :
  none_of delims str = true →
  split_from delims word str = push_word (word +:+ str) [].
Proof.
  intros Hnone. rewrite <-(append_empty_r str) at 1.
  by rewrite split_from_none_of.
Qed.

Lemma none_of_colon name : plain_name name → none_of ":" name = true.
Proof.
  intros [_ Hplain]. revert Hplain. apply none_of_weaken. intros c. simpl.
  by destruct (Ascii.eqb c ":").
Qed.

Lemma none_of_brackets name : plain_name name → none_of "[]" name = true.
Proof.
  intros [_ Hplain]. revert Hplain. apply none_of_weaken. intros c. simpl.
  by destruct (Ascii.eqb c ":").
Qed.

Lemma none_of_app delims str str' :
  none_of delims str = true → none_of delims str' = true →
  none_of delims (str +:+ str') = true.
Proof.
  intros Hs Hs'. induction str as [|c str IH]; [done|].
  rewrite append_cons. simpl in *.
  apply andb_true_iff in Hs as [-> Hs]. simpl. auto.
Qed.

Lemma split_from_cons delims word c rest :
  split_from delims word (String c rest) =
  if is_any_of c delims
  then push_word word (split_from delims EmptyString rest)
  else split_from delims (word +:+ String c EmptyString) rest.
Proof. done. Qed.

(** The words of [<kind>[<name>]] and of [<kind>[<name>]:<units>], for a
    kind of one character. *)
Lemma split_kind_brackets (kind : Ascii.ascii) name :
  is_any_of kind "[]" = false → plain_name name →
  split (String kind ("[" +:+ name +:+ "]")) "[]" = [String kind EmptyString; name].
Proof.
  intros Hkind Hname. unfold split. rewrite split_from_cons, Hkind.
  rewrite append_cons, !append_nil. simpl.
  rewrite split_from_none_of by by apply none_of_brackets.
  simpl. rewrite append_nil. destruct Hname as [Hne _]. by destruct name.
Qed.

Lemma split_kind_colon (kind : Ascii.ascii) name :
  is_any_of kind ":" = false → plain_name name →
  split (String kind ("[" +:+ name +:+ "]")) ":" = [String kind ("[" +:+ name +:+ "]")].
Proof.
  intros Hkind Hname. unfold split. rewrite split_from_cons, Hkind.
  rewrite split_from_end; [by rewrite append_nil|].
  rewrite append_cons, append_nil. simpl.
  apply none_of_app; [by apply none_of_colon|done].
Qed.

Lemma split_kind_units (kind : Ascii.ascii) name units :
  is_any_of kind ":" = false → plain_name name → plain_name units →
  split (String kind ("[" +:+ name +:+ "]:" +:+ units)) ":" =
  [String kind ("[" +:+ name +:+ "]"); units].
Proof.
  intros Hkind Hname Hunits. unfold split. rewrite split_from_cons, Hkind.
  rewrite append_nil, append_cons, append_nil. simpl.
  rewrite split_from_none_of by by apply none_of_colon.
  rewrite !append_cons, append_nil. simpl.
  rewrite split_from_end by by apply none_of_colon.
  repeat first [rewrite append_nil | rewrite append_cons].
  destruct Hunits as [Hne _]. by destruct units.
Qed.

Section Queries.
Context `{Externals}.


Lemma speciesAmount_name_unknown name s :
  name ∉ species_name <$> species (system s) →
  speciesAmount_name name s = (Throw (UnknownSpecies name), s).
Proof.
  intros Hnot. unfold speciesAmount_name, bind.
  by rewrite indexSpeciesWithError_eq, decide_False.
Qed.

Lemma speciesAmount_name_known name s :
  name ∈ species_name <$> species (system s) → sized s →
  ∃ x, n s !! indexSpecies (system s) name = Some x ∧
       speciesAmount_name name s = (Return x, s).
Proof.
  intros Hin Hsized. unfold speciesAmount_name, bind.
  rewrite indexSpeciesWithError_eq, decide_True by done.
  destruct (index_elem_of _ _ Hin) as [Hlt _]. rewrite length_fmap in Hlt.
  change (indexSpecies (system s) name < numSpecies (system s)) in Hlt.
  destruct (lookup_lt_is_Some_2 (n s) (indexSpecies (system s) name)) as [x Hx].
  { unfold sized in Hsized. lia. }
  exists x. split; [done|]. rewrite speciesAmount_eq.
  by rewrite decide_True, Hx.
Qed.

(** X15: the molality query [m[name]] reads the amount of "H2O(l)" first:
    in a system without a species of that name it throws the lookup error
    for "H2O(l)", whatever species is asked for.  With both species in the
    system it returns the amount of the species over the amount of water
    times the molar mass of water, converted from molal to molal; a water
    amount of zero is not an error. *)
Theorem extract_molality (name : string) (s : ChemicalState) :
  plain_name name →
  ("H2O(l)" ∉ species_name <$> species (system s) →
     extract ("m[" +:+ name +:+ "]") s = (Throw (UnknownSpecies "H2O(l)"), s)) ∧
  ("H2O(l)" ∈ species_name <$> species (system s) →
   name ∈ species_name <$> species (system s) → sized s →
   units_convertible "molal" "molal" = true →
   ∃ nH2O ni,
     n s !! indexSpecies (system s) "H2O(l)" = Some nH2O ∧
     n s !! indexSpecies (system s) name = Some ni ∧
     extract ("m[" +:+ name +:+ "]") s =
     (Return (units_convert (ni / (nH2O * waterMolarMass)) "molal" "molal"), s)).
Proof.
  intros Hname.
  change ("m[" +:+ name +:+ "]") with (String "m" ("[" +:+ name +:+ "]")).
  assert (extract (String "m" ("[" +:+ name +:+ "]")) s =
    bind (speciesAmount_name "H2O(l)") (λ nH2O,
      bind (speciesAmount_name name) (λ ni,
        convert (ni / (nH2O * waterMolarMass)) "molal" "molal")) s) as ->.
  { unfold extract. rewrite split_kind_colon by done.
    unfold bind at 1 2 3 4 5 6, gets, temperature, pressure, speciesAmounts. simpl.
    rewrite split_kind_brackets by done. simpl. unfold bind at 1. by simpl. }
  split.
  - intros Hwater. unfold bind at 1.
    by rewrite speciesAmount_name_unknown.
  - intros Hwater Hin Hsized Hmolal.
    destruct (speciesAmount_name_known _ _ Hwater Hsized) as (nH2O & HnH2O & Hrun1).
    destruct (speciesAmount_name_known _ _ Hin Hsized) as (ni & Hni & Hrun2).
    exists nH2O, ni. split_and!; [done..|].
    unfold bind at 1. rewrite Hrun1. unfold bind at 1. rewrite Hrun2.
    unfold convert. by rewrite Hmolal.
Qed.

(** X16: an expression without a word before the first colon -- the empty
    string, or colons only -- is not rejected: the first word is read from
    an empty vector, which is undefined behaviour. *)
Theorem extract_no_word (k : nat) (s : ChemicalState) :
  extract (colons k) s = (Undefined, s).
Proof.
  assert (split (colons k) ":" = []) as Hsplit.
  { unfold split. induction k as [|k IH]; [done|]. simpl. by rewrite IH. }
  unfold extract. by rewrite Hsplit.
Qed.

(** X17: [extract] throws its own error, the one that quotes the
    expression, exactly when the first word of the expression starts with
    none of [n], [b], [m], [a] and is not "pH": only the first character
    of the word selects the quantity. *)
Theorem extract_unknown_quantity (str : string) (s : ChemicalState) :
  extract str s =
    (Throw (Raised "Cannot extract the quantity from the ChemicalState instance."
       ("The provided string `" +:+ str +:+ "` does not represent a valid quantity.")), s)
  ↔ ∃ quantity, split str ":" !! 0 = Some quantity ∧ unknown_quantity quantity.
Proof.
  unfold unknown_quantity. split.
  - unfold extract, speciesAmount_name_units, speciesAmount_name, speciesAmount,
      elementAmount_name_units, elementAmount_name, elementAmount,
      elementAmountInPhase_name_units, elementAmountInPhase_name,
      elementAmountInPhase, indexSpeciesWithError, indexElementWithError,
      indexPhaseWithError, convert, read_n, at_, back, word_at, Assert,
      temperature, pressure, speciesAmounts, bind, ret, gets, get, raise,
      undefined.
    simpl. intros Hrun.
    repeat (case_match; simplify_eq/=); eauto 10.
  - intros (quantity & Hq & Hn & Hb & Hm & Ha & HpH).
    unfold extract, word_at. rewrite Hq.
    unfold bind at 1, ret. simpl.
    destruct (decide (1 < length (split str ":"))).
    + destruct (split str ":" !! 1) eqn:Hw.
      * unfold bind, gets, temperature, pressure, speciesAmounts. simpl.
        by rewrite Hn, Hb, Hm, Ha, HpH.
      * apply lookup_ge_None in Hw. lia.
    + unfold bind, gets, temperature, pressure, speciesAmounts. simpl.
      by rewrite Hn, Hb, Hm, Ha, HpH.
Qed.

(** X18: the pH query and the activity query for "H+" share one lookup:
    [pH] ends as [a[H+]] does, with [-log10] of the activity when that
    query returns one. *)
Theorem extract_pH_of_activity (s : ChemicalState) :
  (extract "pH" s).1 =
  result_map (λ aH, - log10 aH)%float (extract "a[H+]" s).1.
Proof.
  unfold extract, at_, back, bind, gets, ret, undefined, temperature, pressure,
    speciesAmounts.
  simpl. by destruct (activities _ _ _ _ !! _).
Qed.

(** X19: for a plain name that a species of the system has, and one
    activity per species from the property model, the query [a[name]]
    returns the activity of the first species of that name at the state's
    own T, P and n. *)
Theorem extract_activity (name : string) (s : ChemicalState) :
  plain_name name → name ∈ species_name <$> species (system s) →
  activities_sized s →
  ∃ i a,
    (species_name <$> species (system s)) !! i = Some name ∧
    activities (system s) (T s) (P s) (n s) !! i = Some a ∧
    extract ("a[" +:+ name +:+ "]") s = (Return a, s).
Proof.
  intros Hname Hin Hsized.
  destruct (index_elem_of _ _ Hin) as [Hlt Hi]. rewrite length_fmap in Hlt.
  destruct (lookup_lt_is_Some_2
    (activities (system s) (T s) (P s) (n s)) (indexSpecies (system s) name))
    as [a Ha]; [by rewrite Hsized|].
  exists (indexSpecies (system s) name), a. split_and!; [done..|].
  unfold extract. rewrite split_query_colon by done.
  unfold bind, gets, temperature, pressure, speciesAmounts. simpl.
  rewrite split_query_brackets by done. simpl.
  unfold at_. by rewrite Ha.
Qed.

Lemma split_element_phase element phase :
  plain_name element → plain_name phase →
  split (String "b" ("[" +:+ element +:+ "][" +:+ phase +:+ "]")) "[]" =
  ["b"; element; phase].
Proof.
  intros Helement Hphase. unfold split.
  repeat first
    [ rewrite append_nil
    | rewrite append_cons
    | rewrite split_from_cons; simpl
    | rewrite split_from_none_of by by apply none_of_brackets ].
  simpl. destruct Helement as [He _], Hphase as [Hp _].
  by destruct element, phase.
Qed.

Lemma split_element_phase_colon element phase :
  plain_name element → plain_name phase →
  split (String "b" ("[" +:+ element +:+ "][" +:+ phase +:+ "]")) ":" =
  [String "b" ("[" +:+ element +:+ "][" +:+ phase +:+ "]")].
Proof.
  intros Helement Hphase. unfold split. rewrite split_from_cons. simpl.
  rewrite split_from_end; [by rewrite append_nil|].
  rewrite append_cons, append_nil. simpl.
  apply none_of_app; [by apply none_of_colon|].
  rewrite !append_cons, append_nil. simpl.
  apply none_of_app; [by apply none_of_colon|done].
Qed.

(** X20: for plain names, the query [b[element]] is
    [elementAmount(element, "mol")] and the query [b[element][phase]] is
    [elementAmountInPhase(element, phase, "mol")], with their results and
    their errors; the query [b] without a bracketed name reads the second
    of one word, which is undefined behaviour. *)
Theorem extract_element_amount (element : string) (s : ChemicalState) :
  plain_name element →
  extract ("b[" +:+ element +:+ "]") s = elementAmount_name_units element "mol" s ∧
  (∀ phase, plain_name phase →
     extract ("b[" +:+ element +:+ "][" +:+ phase +:+ "]") s =
     elementAmountInPhase_name_units element phase "mol" s) ∧
  extract "b" s = (Undefined, s).
Proof.
  intros Helement. split_and!.
  - change ("b[" +:+ element +:+ "]") with (String "b" ("[" +:+ element +:+ "]")).
    pose proof (split_kind_brackets "b" element eq_refl Helement) as Hwords.
    pose proof Hwords as Htail. unfold split in Htail. simpl in Htail.
    injection Htail as Htail.
    unfold extract. rewrite split_kind_colon by done.
    unfold bind at 1 2 3 4 5 6, gets, temperature, pressure, speciesAmounts. simpl.
    rewrite Hwords, Htail. simpl. unfold bind at 1 2. by simpl.
  - intros phase Hphase.
    change ("b[" +:+ element +:+ "][" +:+ phase +:+ "]")
      with (String "b" ("[" +:+ element +:+ "][" +:+ phase +:+ "]")).
    pose proof (split_element_phase element phase Helement Hphase) as Hwords.
    pose proof Hwords as Htail. unfold split in Htail. simpl in Htail.
    injection Htail as Htail.
    unfold extract. rewrite split_element_phase_colon by done.
    unfold bind at 1 2 3 4 5 6, gets, temperature, pressure, speciesAmounts. simpl.
    rewrite Hwords, Htail. simpl. unfold bind at 1 2. simpl.
    destruct Hphase as [Hne _]. by destruct phase.
  - done.
Qed.

End Queries.


Lemma extract_molality_witness :
  extract (H:=Examples.externals) "m[CO2(g)]"
    (ChemicalState_new
       {| phases := [Examples.gaseous]; element_names := ["C"; "O"];
          phaseVolumes _ _ v := v; activities _ _ v := v;
          system_elementAmount _ _ := 0%float;
          system_elementAmountInPhase _ _ _ := 0%float |}) =
    (Throw (UnknownSpecies "H2O(l)"),
     ChemicalState_new
       {| phases := [Examples.gaseous]; element_names := ["C"; "O"];
          phaseVolumes _ _ v := v; activities _ _ v := v;
          system_elementAmount _ _ := 0%float;
          system_elementAmountInPhase _ _ _ := 0%float |}) ∧
  ∃ m, extract (H:=Examples.externals) "m[H+]" Examples.s1 = (Return m, Examples.s1).
Proof.
  split.
  - refine (proj1 (extract_molality (H:=Examples.externals) "CO2(g)" _ _) _).
    + split; [discriminate|reflexivity].
    + intros Hin%list_elem_of_In. simpl in Hin. intuition discriminate.
  - destruct (proj2 (extract_molality (H:=Examples.externals) "H+" Examples.s1
        ltac:(split; [discriminate|reflexivity])))
      as (nH2O & ni & _ & _ & Hrun); [..|eauto].
    + apply list_elem_of_In. simpl. tauto.
    + apply list_elem_of_In. simpl. tauto.
    + reflexivity.
    + reflexivity.
Defined.

Lemma extract_activity_witness :
  extract (H:=Examples.externals) "a[CO2(g)]" Examples.s1 =
    (Return 20%float, Examples.s1).
Proof.
  destruct (extract_activity (H:=Examples.externals) "CO2(g)" Examples.s1)
    as (i & a & Hi & Ha & Hrun).
  - split; [discriminate|reflexivity].
  - apply list_elem_of_In. simpl. tauto.
  - reflexivity.
  - assert (i = 3) as -> by by destruct i as [|[|[|[|[|]]]]].
    injection Ha as <-. exact Hrun.
Defined.

Lemma extract_element_amount_witness :
  extract (H:=Examples.externals) "b[C]" Examples.s1 = (Return 59.5%float, Examples.s1) ∧
  extract (H:=Examples.externals) "b[C][Gaseous]" Examples.s1 =
    (Return 59.5%float, Examples.s1) ∧
  extract (H:=Examples.externals) "b[C][Solid]" Examples.s1 =
    (Throw (UnknownPhase "Solid"), Examples.s1).
Proof.
  destruct (extract_element_amount (H:=Examples.externals) "C" Examples.s1)
    as (Hwhole & Hphase & _); [split; [discriminate|reflexivity]|].
  split_and!.
  - etrans; [exact Hwhole|reflexivity].
  - etrans; [exact (Hphase "Gaseous" ltac:(split; [discriminate|reflexivity]))|].
    reflexivity.
  - etrans; [exact (Hphase "Solid" ltac:(split; [discriminate|reflexivity]))|].
    reflexivity.
Defined.

Lemma extract_inputs_witness :
  (extract (H:=Examples.externals) "pH" (with_y [1; 2; 3]%float Examples.s1)).1 =
  Return (-1)%float.
Proof.
  rewrite (extract_inputs (H:=Examples.externals) "pH"
             (with_y [1; 2; 3]%float Examples.s1) Examples.s1); reflexivity.
Defined.

(** ** More on partitions *)

(** X22: for index collections [E] and [I] with entries below the number
    of species [N], [allKineticExcept(system, E, I)] passes [E] and [I]
    through as the equilibrium and the inert indices, its kinetic indices
    are exactly the indices below [N] that are neither in [E] nor in [I],
    and the three together are exactly the indices [0 .. N-1]. *)
Theorem allKineticExcept_spec (sys : ChemicalSystem) (E I : list nat) :
  (∀ i, i ∈ E → i < numSpecies sys) →
  (∀ i, i ∈ I → i < numSpecies sys) →
  let p := Partition.allKineticExcept sys E I in
  Partition.equilibriumSpeciesIndices p = E ∧
  Partition.inertSpeciesIndices p = I ∧
  (∀ i, i ∈ Partition.kineticSpeciesIndices p ↔
        i < numSpecies sys ∧ (i ∉ E) ∧ (i ∉ I)) ∧
  (∀ i, i < numSpecies sys ↔
        i ∈ E ∨ i ∈ Partition.kineticSpeciesIndices p ∨ i ∈ I).
Proof.
  intros HE HI p.
  assert (∀ i, i ∈ Partition.kineticSpeciesIndices p ↔
               i < numSpecies sys ∧ (i ∉ E) ∧ (i ∉ I)) as Hkin.
  { intros i. unfold p, Partition.allKineticExcept. simpl.
    rewrite elem_of_difference, elem_of_range, elem_of_unify.
    unfold numSpecies. tauto. }
  split_and!; try done.
  intros i. rewrite Hkin. split.
  - intros Hi. destruct (decide (i ∈ E)); [tauto|].
    destruct (decide (i ∈ I)); tauto.
  - intros [Hi|[Hi|Hi]]; [auto|tauto|auto].
Qed.

Lemma allKineticExcept_spec_witness :
  let p := Partition.allKineticExcept Examples.sys [0] [3] in
  Partition.kineticSpeciesIndices p = [1; 2] ∧
  Partition.equilibriumSpeciesIndices p = [0] ∧
  (∀ i, i < 4 ↔ i ∈ [0] ∨ i ∈ Partition.kineticSpeciesIndices p ∨ i ∈ [3]).
Proof.
  destruct (allKineticExcept_spec Examples.sys [0] [3])
    as (HE & _ & _ & Hall).
  - intros i ->%list_elem_of_singleton. vm_compute. lia.
  - intros i ->%list_elem_of_singleton. vm_compute. lia.
  - split; [reflexivity|]. split; [exact HE|]. exact Hall.
Defined.

(** X23: the factory does not validate what it is given: the three sets
    of [allEquilibriumExcept(system, K, I)] split the species indices --
    none out of range, each index in exactly one set -- exactly when [K]
    and [I] hold only indices below the number of species and share
    none. *)
Theorem allEquilibriumExcept_splits (sys : ChemicalSystem) (K I : list nat) :
  splits_species (numSpecies sys) (Partition.allEquilibriumExcept sys K I) ↔
  (∀ i, i ∈ K → i < numSpecies sys) ∧
  (∀ i, i ∈ I → i < numSpecies sys) ∧
  (∀ i, i ∈ K → i ∉ I).
Proof.
  unfold splits_species, Partition.allEquilibriumExcept. simpl.
  assert (∀ i, i ∈ Partition.difference (Partition.range (length (species sys)))
                     (Partition.unify K I) ↔
               i < numSpecies sys ∧ (i ∉ K) ∧ (i ∉ I)) as Heq.
  { intros i. rewrite elem_of_difference, elem_of_range, elem_of_unify.
    unfold numSpecies. tauto. }
  split.
  - intros [Hrange Hone]. split_and!.
    + intros i Hi. apply Hrange. auto.
    + intros i Hi. apply Hrange. auto.
    + intros i HK HI. destruct (Hone i) as [(_ & ? & _)|[(_ & _ & ?)|(_ & ? & _)]];
        [apply Hrange; auto|done..].
  - intros (HK & HI & Hdisj). split.
    + intros i [Hi%Heq|[Hi|Hi]]; [tauto|auto..].
    + intros i Hi. rewrite !Heq.
      destruct (decide (i ∈ K)) as [HiK|HiK]; destruct (decide (i ∈ I)) as [HiI|HiI].
      * by apply Hdisj in HiK.
      * right. left. tauto.
      * right. right. tauto.
      * left. tauto.
Qed.

(** X24: [allEquilibrium(system)] and [allKinetic(system)] put every
    species index, and nothing else, into their one set and leave the
    other two empty; they are what the factories with exceptions give for
    no exceptions. *)
Theorem allEquilibrium_allKinetic_spec (sys : ChemicalSystem) :
  (∀ i, i ∈ Partition.equilibriumSpeciesIndices (Partition.allEquilibrium sys)
        ↔ i < numSpecies sys) ∧
  Partition.kineticSpeciesIndices (Partition.allEquilibrium sys) = [] ∧
  Partition.inertSpeciesIndices (Partition.allEquilibrium sys) = [] ∧
  (∀ i, i ∈ Partition.kineticSpeciesIndices (Partition.allKinetic sys)
        ↔ i < numSpecies sys) ∧
  Partition.equilibriumSpeciesIndices (Partition.allKinetic sys) = [] ∧
  Partition.inertSpeciesIndices (Partition.allKinetic sys) = [] ∧
  splits_species (numSpecies sys) (Partition.allEquilibrium sys) ∧
  splits_species (numSpecies sys) (Partition.allKinetic sys) ∧
  Partition.allEquilibriumExcept sys [] [] = Partition.allEquilibrium sys ∧
  Partition.allKineticExcept sys [] [] = Partition.allKinetic sys.
Proof.
  assert (∀ N, list_difference (seq 0 N) (remove_dups ([] ++ [])) = seq 0 N) as Hdiff.
  { intros N. simpl. induction (seq 0 N) as [|i l IH]; [done|]. simpl.
    by rewrite IH. }
  unfold splits_species, Partition.allEquilibrium, Partition.allKinetic,
    Partition.allEquilibriumExcept, Partition.allKineticExcept,
    Partition.difference, Partition.unify, Partition.range. simpl.
  rewrite Hdiff. unfold numSpecies.
  split_and!; try done; try (intros i; rewrite elem_of_seq; lia).
  - intros i [Hi%elem_of_seq|[Hi%elem_of_nil|Hi%elem_of_nil]]; [lia|done..].
  - intros i Hi. left. split_and!; [apply elem_of_seq; lia|apply not_elem_of_nil..].
  - intros i [Hi%elem_of_nil|[Hi%elem_of_seq|Hi%elem_of_nil]]; [done|lia|done].
  - intros i Hi. right. left.
    split_and!; [apply not_elem_of_nil|apply elem_of_seq; lia|apply not_elem_of_nil].
Qed.
